(** * Seamless Agent: the ask_user tool, its broker and its webview

    A shallow embedding of [src/tools.ts], [src/localization.ts],
    [src/webviewProvider.ts] and [src/webview/main.ts].

    Conventions of the model.
    - A JS string is a sequence of UTF-16 code units; it is modelled by a
      Rocq [string] whose characters are the code units below 256.
    - A JS object held by reference (a [WebviewView]) lives in a heap, a
      finite map from addresses to records; the provider keeps an address.
    - A promise is named by a number; calling its [resolve] function is
      recorded in a log, so that "resolved exactly once" can be counted.
    - A sequence of awaited host dialogs is a finite interaction tree
      ([Host]) that is run against the answers of a human. *)

From Stdlib Require Import ZArith Lia Ascii String DecimalString DecimalNat.
From stdpp Require Import gmap strings list.

Local Open Scope string_scope.

(** ** JS string primitives *)

Module JS.

(** ECMAScript WhiteSpace and LineTerminator code units below 256:
    TAB, LF, VT, FF, CR, SP and NBSP. *)
Definition isWhiteSpace (c : ascii) : bool :=
  match nat_of_ascii c with
  | 9 | 10 | 11 | 12 | 13 | 32 | 160 => true
  | _ => false
  end.

Fixpoint trimStart (s : string) : string :=
  match s with
  | EmptyString => EmptyString
  | String c s' => if isWhiteSpace c then trimStart s' else s
  end.

Fixpoint trimEnd (s : string) : string :=
  match s with
  | EmptyString => EmptyString
  | String c s' =>
      match trimEnd s' with
      | EmptyString => if isWhiteSpace c then EmptyString else String c EmptyString
      | t => String c t
      end
  end.

(** [String.prototype.trim] *)
Definition trim (s : string) : string := trimEnd (trimStart s).

(** [a || b] on strings: the empty string is falsy. *)
Definition or_else (a b : string) : string :=
  match a with EmptyString => b | _ => a end.

(** [s.startsWith(p)], returning what follows [p]. *)
Fixpoint strip_prefix (p s : string) : option string :=
  match p, s with
  | EmptyString, _ => Some s
  | String a p', String b s' => if Ascii.eqb a b then strip_prefix p' s' else None
  | String _ _, EmptyString => None
  end.

(** The first occurrence of [pat] in [s]: the text before it and the
    text after it. *)
Fixpoint split_at_first (pat s : string) : option (string * string) :=
  match strip_prefix pat s with
  | Some following => Some (EmptyString, following)
  | None =>
      match s with
      | EmptyString => None
      | String c s' =>
          match split_at_first pat s' with
          | Some (preceding, following) => Some (String c preceding, following)
          | None => None
          end
      end
  end.

(** GetSubstitution of ECMA-262 for a string pattern: there are no
    captures, so [$$], [$&], [$`] and [$'] are the only patterns that
    expand; any other [$] stays as it is. *)
Fixpoint GetSubstitution (matched preceding following replacement : string) : string :=
  match replacement with
  | EmptyString => EmptyString
  | String c r =>
      if Ascii.eqb c "$" then
        match r with
        | EmptyString => String c EmptyString
        | String d r' =>
            if Ascii.eqb d "$" then String "$" (GetSubstitution matched preceding following r')
            else if Ascii.eqb d "&" then matched +:+ GetSubstitution matched preceding following r'
            else if Ascii.eqb d "`" then preceding +:+ GetSubstitution matched preceding following r'
            else if Ascii.eqb d "'" then following +:+ GetSubstitution matched preceding following r'
            else String c (GetSubstitution matched preceding following r)
        end
      else String c (GetSubstitution matched preceding following r)
  end.

(** [s.replace(pat, replacement)] with a string pattern: only the first
    occurrence is replaced. *)
Definition replace (pat replacement s : string) : string :=
  match split_at_first pat s with
  | None => s
  | Some (preceding, following) =>
      preceding +:+ GetSubstitution pat preceding following replacement +:+ following
  end.

(** ToString of an array index: its decimal digits. *)
Definition ofIndex (index : nat) : string :=
  NilEmpty.string_of_uint (Nat.to_uint index).

(** [xs.forEach((x, index) => ...)] threading the variable the callback
    assigns to. *)
Fixpoint forEach {A St : Type} (f : St -> A -> nat -> St) (xs : list A) (index : nat) (acc : St) : St :=
  match xs with
  | [] => acc
  | x :: xs' => forEach f xs' (S index) (f acc x index)
  end.

(** Words used to state what [trim] does. *)
Fixpoint all_whitespace (s : string) : bool :=
  match s with
  | EmptyString => true
  | String c s' => isWhiteSpace c && all_whitespace s'
  end.

Definition first_char (s : string) : option ascii :=
  match s with
  | EmptyString => None
  | String c _ => Some c
  end.

Fixpoint last_char (s : string) : option ascii :=
  match s with
  | EmptyString => None
  | String c EmptyString => Some c
  | String _ s' => last_char s'
  end.

(** [s.includes(c)] for one character. *)
Fixpoint has_char (c : ascii) (s : string) : bool :=
  match s with
  | EmptyString => false
  | String x s' => Ascii.eqb c x || has_char c s'
  end.

Definition is_space (o : option ascii) : bool :=
  match o with
  | Some c => isWhiteSpace c
  | None => false
  end.

End JS.

(** ** src/localization.ts *)

Module Localization.

(** An argument of [localize] is a string or a number.  A number is
    carried by the text that ToString gives it, so that no floating
    point formatting enters the model. *)
Inductive Arg : Type :=
| ArgString (s : string)
| ArgNumber (text : string).

(** [String(arg)] *)
Definition String_ (arg : Arg) : string :=
  match arg with
  | ArgString s => s
  | ArgNumber text => text
  end.

(** The template literal [`{${index}}`]. *)
Definition placeholder (index : nat) : string :=
  "{" +:+ JS.ofIndex index +:+ "}".

(** [bundle[key] || key] when the lookup gives a string or nothing, that
    is, when the key has an entry of its own or names no member of
    Object.prototype; the entries of the bundle are a finite map from
    keys to strings.  The keys of the [strings] getters are of that
    kind.  [Prototype.localize] below is [localize] on every key. *)
Definition lookup_message (bundle : gmap string string) (key : string) : string :=
  match bundle !! key with
  | Some message => JS.or_else message key
  | None => key
  end.

(** The loop of [localize] on that message. *)
Definition localize (bundle : gmap string string) (key : string) (args : list Arg) : string :=
  JS.forEach
    (fun message arg index => JS.replace (placeholder index) (String_ arg) message)
    args 0 (lookup_message bundle key).

(** *** Messages as templates

    To say what "each placeholder is substituted" means, a message is
    read as pieces of text interleaved with placeholders. *)
Inductive Piece : Type :=
| Text (s : string)
| Hole (index : nat).

Definition render_piece (piece : Piece) : string :=
  match piece with
  | Text s => s
  | Hole index => placeholder index
  end.

(** The message a template stands for. *)
Fixpoint render (tpl : list Piece) : string :=
  match tpl with
  | [] => EmptyString
  | piece :: tpl' => render_piece piece +:+ render tpl'
  end.



(** The placeholders of a template, in order. *)
Fixpoint holes (tpl : list Piece) : list nat :=
  match tpl with
  | [] => []
  | Text _ :: tpl' => holes tpl'
  | Hole index :: tpl' => index :: holes tpl'
  end.

(** The first placeholder [{index}] of a template replaced by text. *)
Fixpoint fill_first (index : nat) (text : string) (tpl : list Piece) : list Piece :=
  match tpl with
  | [] => []
  | Text s :: tpl' => Text s :: fill_first index text tpl'
  | Hole j :: tpl' =>
      if decide (j = index) then Text text :: tpl'
      else Hole j :: fill_first index text tpl'
  end.

(** The getters of [strings] that the modelled code reads. *)
Section Strings.
Variable bundle : gmap string string.

Definition confirmationRequired : string := localize bundle "notification.confirmationRequired" [].
Definition agentRequiresInput : string := localize bundle "notification.agentRequiresInput" [].
Definition openConsole : string := localize bundle "notification.openConsole" [].
Definition respond : string := localize bundle "button.respond" [].
Definition inputPlaceholder : string := localize bundle "input.placeholder" [].
Definition inputRequired : string := localize bundle "badge.inputRequired" [].
End Strings.

End Localization.

(** ** The result record shared by tools.ts and webviewProvider.ts *)

Record UserResponseResult : Type := mkResult {
  responded : bool;
  response : string
}.

Global Instance UserResponseResult_eq_dec : EqDecision UserResponseResult.
Proof. solve_decision. Defined.

(** ** Host dialogs: [vscode.commands] and [vscode.window] *)

Module Vscode.

(** A program that awaits host dialogs one after the other.  Each node
    is one call; the continuation receives what the awaited promise
    settles with ([None] is [undefined], the dismissed dialog). *)
Inductive Host (A : Type) : Type :=
| Return (a : A)
| executeCommand (command : string) (k : Host A)
| showWarningMessage (message : string) (modal : bool) (items : list string)
    (k : option string -> Host A)
| showInputBox (title prompt placeHolder : string) (ignoreFocusOut : bool)
    (k : option string -> Host A).

Arguments Return {A} a.
Arguments executeCommand {A} command k.
Arguments showWarningMessage {A} message modal items k.
Arguments showInputBox {A} title prompt placeHolder ignoreFocusOut k.

(** What the human sees. *)
Inductive Call : Type :=
| CommandCall (command : string)
| WarningCall (message : string) (modal : bool) (items : list string)
| InputBoxCall (title prompt placeHolder : string) (ignoreFocusOut : bool).

(** The human answers the dialogs; [interact] gives the dialogs that were
    opened, in order, and the value the program returns. *)
Fixpoint interact {A : Type} (human : Call -> option string) (prog : Host A) : list Call * A :=
  match prog with
  | Return a => ([], a)
  | executeCommand command k =>
      let '(calls, a) := interact human k in (CommandCall command :: calls, a)
  | showWarningMessage message modal items k =>
      let call := WarningCall message modal items in
      let '(calls, a) := interact human (k (human call)) in (call :: calls, a)
  | showInputBox title prompt placeHolder ignoreFocusOut k =>
      let call := InputBoxCall title prompt placeHolder ignoreFocusOut in
      let '(calls, a) := interact human (k (human call)) in (call :: calls, a)
  end.

Definition isInputBox (call : Call) : bool :=
  match call with InputBoxCall _ _ _ _ => true | _ => false end.

End Vscode.

(** ** src/tools.ts *)

Module Tools.
Import Vscode.

Section WithBundle.
Variable bundle : gmap string string.

(** [askViaVSCode(question, title)] *)
Definition askViaVSCode (question title : string) : Host UserResponseResult :=
  let buttonText := Localization.respond bundle in
  executeCommand "workbench.action.focusActiveEditorGroup"
    (showWarningMessage
       (Localization.confirmationRequired bundle +:+ ": " +:+ question)
       false [buttonText]
       (fun selection =>
          if decide (selection <> Some buttonText) then
            Return (mkResult false "")
          else
            showInputBox title question (Localization.inputPlaceholder bundle) true
              (fun response =>
                 match response with
                 | None => Return (mkResult false "")
                 | Some response =>
                     Return (mkResult (0 <? String.length (JS.trim response))%nat response)
                 end))).

(** The test of [askViaWebview]:
    [!result.responded && result.response === 'Agent Console view is not available.'] *)
Definition viewNotAvailable (result : UserResponseResult) : bool :=
  negb (responded result) && (response result =? "Agent Console view is not available.")%string.

(** [askViaWebview(provider, question, title)] from the point where
    [await provider.waitForUserResponse(question, title)] has given
    [result]. *)
Definition askViaWebview (result : UserResponseResult) (question title : string)
  : Host UserResponseResult :=
  if viewNotAvailable result then askViaVSCode question title
  else Return result.

(** The input of the ask_user tool and the title [invoke] builds:
    [`${agentName}: ${baseTitle}`]. *)
Record Input : Type := {
  question : string;
  title : option string;
  agentName : option string
}.

Definition or_default (o : option string) (d : string) : string :=
  match o with Some s => JS.or_else s d | None => d end.

Definition invoke_title (params : Input) : string :=
  or_default (agentName params) "Agent" +:+ ": " +:+
  or_default (title params) (Localization.confirmationRequired bundle).

End WithBundle.
End Tools.

(** ** src/webviewProvider.ts *)

Module WebviewProvider.

Inductive ToWebviewMessage : Type :=
| ShowQuestion (question title : string)
| Clear.

Inductive FromWebviewMessage : Type :=
| Submit (response : string)
| Cancel.

Record ViewBadge : Type := { value : nat; tooltip : string }.

(** The part of a [vscode.WebviewView] the provider writes to: its
    badge, the messages posted to its webview and the calls of [show]
    (with their preserveFocus argument). *)
Record WebviewView : Type := mkView {
  badge : option ViewBadge;
  posted : list ToWebviewMessage;
  shows : list bool
}.

Definition new_view : WebviewView := mkView None [] [].

(** The provider object together with the objects it reaches:
    [heap] holds the views the host has handed over, [_view] is the
    reference the provider keeps, [_pendingRequest] holds the resolve
    function of promise [p] as [Some p]; [promises] counts the promises
    created, [resolutions] logs the calls of resolve functions (newest
    first) and [notifications] the information messages shown. *)
Record Provider : Type := mkProvider {
  heap : gmap nat WebviewView;
  _view : option nat;
  _pendingRequest : option nat;
  promises : nat;
  resolutions : list (nat * UserResponseResult);
  notifications : list (string * string)
}.

(** The provider after its constructor. *)
Definition init : Provider := mkProvider ∅ None None 0 [] [].

(** What an async call hands back: a promise that is already fulfilled,
    or promise [p], still pending. *)
Inductive Promise : Type :=
| Fulfilled (result : UserResponseResult)
| Pending (p : nat).

Definition set_heap (f : gmap nat WebviewView -> gmap nat WebviewView) (st : Provider) : Provider :=
  mkProvider (f (heap st)) (_view st) (_pendingRequest st) (promises st)
    (resolutions st) (notifications st).

(** [this._view?.f(...)] *)
Definition on_view (f : WebviewView -> WebviewView) (st : Provider) : Provider :=
  match _view st with
  | Some v => set_heap (alter f v) st
  | None => st
  end.

Definition postMessage (message : ToWebviewMessage) (view : WebviewView) : WebviewView :=
  mkView (badge view) (posted view ++ [message]) (shows view).

Definition show (preserveFocus : bool) (view : WebviewView) : WebviewView :=
  mkView (badge view) (posted view) (shows view ++ [preserveFocus]).

Definition set_badge (b : option ViewBadge) (view : WebviewView) : WebviewView :=
  mkView b (posted view) (shows view).

Section WithBundle.
Variable bundle : gmap string string.

(** [resolveWebviewView(webviewView, context, token)]: the host hands
    over the view at address [webviewView].  Its options and html are
    not modelled; the two listeners it registers are the events
    [Message] and [Dispose] below. *)
Definition resolveWebviewView (webviewView : nat) (st : Provider) : Provider :=
  mkProvider
    (<[webviewView := default new_view (heap st !! webviewView)]> (heap st))
    (Some webviewView) (_pendingRequest st) (promises st)
    (resolutions st) (notifications st).

Definition showQuestion (question title : string) (st : Provider) : Provider :=
  on_view (postMessage (ShowQuestion question title)) st.

Definition clear (st : Provider) : Provider :=
  on_view (postMessage Clear) st.

Definition _setBadge (count : nat) (st : Provider) : Provider :=
  on_view
    (set_badge
       (if (0 <? count)%nat then Some {| value := count; tooltip := Localization.inputRequired bundle |}
        else None))
    st.

(** [_showNotification()]: the callback of the information message only
    asks the host to focus the view and touches no field of the
    provider. *)
Definition _showNotification (st : Provider) : Provider :=
  mkProvider (heap st) (_view st) (_pendingRequest st) (promises st) (resolutions st)
    (notifications st ++
       [(Localization.agentRequiresInput bundle, Localization.openConsole bundle)]).

Definition _resolvePendingRequest (result : UserResponseResult) (st : Provider) : Provider :=
  match _pendingRequest st with
  | Some p =>
      _setBadge 0
        (mkProvider (heap st) (_view st) None (promises st)
           ((p, result) :: resolutions st) (notifications st))
  | None => st
  end.

Definition _handleWebviewMessage (message : FromWebviewMessage) (st : Provider) : Provider :=
  match message with
  | Submit response => _resolvePendingRequest (mkResult true response) st
  | Cancel => _resolvePendingRequest (mkResult false "") st
  end.

(** The listener given to [webviewView.onDidDispose]. *)
Definition onDidDispose (st : Provider) : Provider :=
  _resolvePendingRequest (mkResult false "View was closed") st.

Definition waitForUserResponse (question : string) (title : option string) (st : Provider)
  : Provider * Promise :=
  match _pendingRequest st with
  | Some _ => (st, Fulfilled (mkResult false "Another request is already pending."))
  | None =>
      match _view st with
      | None => (st, Fulfilled (mkResult false "Agent Console view is not available."))
      | Some _ =>
          let p := promises st in
          let st := mkProvider (heap st) (_view st) (Some p) (S p)
                      (resolutions st) (notifications st) in
          let st := showQuestion question
                      (Tools.or_default title (Localization.confirmationRequired bundle)) st in
          let st := _setBadge 1 st in
          let st := on_view (show true) st in
          let st := _showNotification st in
          (st, Pending p)
      end
  end.

(** What can happen to the provider: the host attaches a view, a
    listener fires, or a caller asks. *)
Inductive Event : Type :=
| Resolve (webviewView : nat)
| Message (message : FromWebviewMessage)
| Dispose
| Ask (question : string) (title : option string).

Definition step (st : Provider) (ev : Event) : Provider :=
  match ev with
  | Resolve webviewView => resolveWebviewView webviewView st
  | Message message => _handleWebviewMessage message st
  | Dispose => onDidDispose st
  | Ask question title => fst (waitForUserResponse question title st)
  end.

Definition run (evs : list Event) (st : Provider) : Provider :=
  fold_left step evs st.

Definition reachable (st : Provider) : Prop :=
  exists evs, st = run evs init.

(** The runs in which the host attaches a view only while no request
    is pending. *)
Fixpoint attached_when_idle (evs : list Event) (st : Provider) : Prop :=
  match evs with
  | [] => True
  | ev :: evs' =>
      match ev with
      | Resolve _ => _pendingRequest st = None
      | _ => True
      end /\ attached_when_idle evs' (step st ev)
  end.

End WithBundle.

Definition badge_count (view : WebviewView) : nat :=
  match badge view with Some b => value b | None => 0 end.

(** The badge count on the attached view: 0 when there is no view or no
    badge. *)
Definition BadgeState (st : Provider) : nat :=
  match _view st with
  | Some v =>
      match heap st !! v with
      | Some view => badge_count view
      | None => 0
      end
  | None => 0
  end.

(** The badges follow the slot: while it is empty no view of the heap
    has a badge; while it is occupied the attached view has the badge 1
    and no other view has one. *)
Definition BadgeInv (st : Provider) : Prop :=
  match _pendingRequest st with
  | None => forall w view, heap st !! w = Some view -> badge_count view = 0
  | Some _ =>
      exists v view, _view st = Some v /\ heap st !! v = Some view /\
        badge_count view = 1 /\
        forall w view', w <> v -> heap st !! w = Some view' -> badge_count view' = 0
  end.

(** The results promise [p] was resolved with, oldest first. *)
Definition outcomes (p : nat) (st : Provider) : list UserResponseResult :=
  rev (map snd (filter (fun e => fst e = p) (resolutions st))).

(** What every reachable provider satisfies: a pending request has a
    view attached and a promise that was created and not resolved yet;
    only created promises were resolved, none twice; the attached view
    is in the heap. *)
Record Inv (st : Provider) : Prop := {
  inv_view : forall p, _pendingRequest st = Some p -> is_Some (_view st);
  inv_fresh : forall p, _pendingRequest st = Some p ->
    p < promises st /\ p ∉ map fst (resolutions st);
  inv_bound : forall p, p ∈ map fst (resolutions st) -> p < promises st;
  inv_once : NoDup (map fst (resolutions st));
  inv_heap : forall v, _view st = Some v -> is_Some (heap st !! v)
}.

(** A listener that can resolve the pending request. *)
Definition is_trigger (ev : Event) : bool :=
  match ev with
  | Message _ | Dispose => true
  | _ => false
  end.

End WebviewProvider.

(** ** src/webview/main.ts *)

Module Webview.
Import WebviewProvider.

(** The elements the script looks up; an element that is missing is
    [None].  For the two containers the field tells whether the class
    [hidden] is set.  The element found under the id response-input is
    the textarea the script casts it to, and the field is its value. *)
Record Document : Type := mkDocument {
  emptyState : option bool;
  requestForm : option bool;
  questionTitle : option string;
  questionContent : option string;
  responseInput : option string
}.

Definition clearForm (doc : Document) : Document :=
  mkDocument
    (match emptyState doc with Some _ => Some false | None => None end)
    (match requestForm doc with Some _ => Some true | None => None end)
    (questionTitle doc) (questionContent doc)
    (match responseInput doc with Some _ => Some "" | None => None end).

(** [responseInput?.value.trim() || ''] *)
Definition submitted_response (doc : Document) : string :=
  match responseInput doc with
  | Some value => JS.or_else (JS.trim value) ""
  | None => ""
  end.

(** [handleSubmit()]: the message posted to the extension host and the
    document afterwards. *)
Definition handleSubmit (doc : Document) : FromWebviewMessage * Document :=
  (Submit (submitted_response doc), clearForm doc).

Definition handleCancel (doc : Document) : FromWebviewMessage * Document :=
  (Cancel, clearForm doc).

(** The keydown listener of the textarea: Ctrl+Enter submits. *)
Definition onKeydown (key : string) (ctrlKey : bool) (doc : Document)
  : option FromWebviewMessage * Document :=
  if (key =? "Enter")%string && ctrlKey then
    let '(message, doc') := handleSubmit doc in (Some message, doc')
  else (None, doc).

(** The document of [_getHtmlContent] with [text] typed in the textarea
    of the visible form. *)
Definition form_with (text : string) : Document :=
  mkDocument (Some true) (Some false) (Some "") (Some "") (Some text).

End Webview.

(** ** src/localization.ts: lookups through the prototype, loading *)

Module Prototype.
Import Localization.

(** The names of the members of Object.prototype.  The bundle is a
    plain object, so [bundle[key]] finds one of them when the bundle has
    no entry of its own under that name. *)
Definition members : list string :=
  ["constructor"; "__defineGetter__"; "__defineSetter__"; "hasOwnProperty";
   "__lookupGetter__"; "__lookupSetter__"; "isPrototypeOf";
   "propertyIsEnumerable"; "toString"; "valueOf"; "__proto__"; "toLocaleString"].

Definition inherited (key : string) : bool :=
  existsb (String.eqb key) members.

(** A value of the variable [message]: a string, or one of the
    functions and objects that Object.prototype holds. *)
Inductive Value : Type :=
| Str (s : string)
| Obj.

(** [bundle[key]]; [None] is [undefined]. *)
Definition get (bundle : gmap string string) (key : string) : option Value :=
  match bundle !! key with
  | Some entry => Some (Str entry)
  | None => if inherited key then Some Obj else None
  end.

(** How a call ends: with a value, or with the TypeError of
    [message.replace] on a value that has no such method. *)
Inductive Completion : Type :=
| Returns (v : Value)
| Throws.

(** [localize(key, ...args)] on every key. *)
Definition localize (bundle : gmap string string) (key : string) (args : list Arg)
  : Completion :=
  let message :=
    match get bundle key with
    | Some (Str entry) => Str (JS.or_else entry key)
    | Some Obj => Obj
    | None => Str key
    end in
  match message with
  | Str text =>
      Returns
        (Str (JS.forEach
                (fun message arg index =>
                   JS.replace (placeholder index) (String_ arg) message)
                args 0 text))
  | Obj =>
      match args with
      | [] => Returns Obj
      | _ :: _ => Throws
      end
  end.

End Prototype.

Module Bundle.

(** [Object.assign(target, source)] on two bundles.  Each entry of
    [source] is written with an ordinary assignment, so an entry named
    "__proto__" reaches the setter of Object.prototype, which ignores a
    string, unless [target] has an entry of its own under that name. *)
Definition assign (target source : gmap string string) : gmap string string :=
  (if decide (is_Some (target !! "__proto__")) then source
   else delete "__proto__" source) ∪ target.

(** The module body that builds [bundle].  [base] is the content of
    package.nls.json, [locale] is [vscode.env.language], and [require]
    reads a localized file ([None] when it throws, which the empty
    [catch] swallows). *)
Definition load (base : gmap string string) (locale : string)
  (require : string -> option (gmap string string)) : gmap string string :=
  if negb (locale =? "")%string && negb (locale =? "en")%string then
    match require ("../package.nls." +:+ locale +:+ ".json") with
    | Some localizedBundle => assign base localizedBundle
    | None => base
    end
  else base.

End Bundle.

(** ** Conditions under which placeholders are replaced as written *)

Module Placeholder.
Import Localization.

Definition is_digit (c : ascii) : bool :=
  ((48 <=? nat_of_ascii c) && (nat_of_ascii c <=? 57))%nat.

Fixpoint all_digits (s : string) : bool :=
  match s with
  | EmptyString => true
  | String c r => is_digit c && all_digits r
  end.

(** An opening brace opens a placeholder when one digit at least and a
    closing brace follow.  It could come to open one when only digits,
    or nothing, follow up to the end of the text, since the text put
    next to it may complete it; [last] tells that the text is the end of
    the message, after which nothing is put.

    [blocked_digits last s]: after an opening brace and a digit, [s]
    does not complete a placeholder. *)
Fixpoint blocked_digits (last : bool) (s : string) : bool :=
  match s with
  | EmptyString => last
  | String c r => if is_digit c then blocked_digits last r else negb (Ascii.eqb c "}")
  end.

(** After an opening brace, [s] does not begin or complete a
    placeholder. *)
Definition blocked_after (last : bool) (s : string) : bool :=
  match s with
  | EmptyString => last
  | String c r => if is_digit c then blocked_digits last r else true
  end.

(** No opening brace of [s] opens a placeholder or could come to. *)
Fixpoint braces_blocked (last : bool) (s : string) : bool :=
  match s with
  | EmptyString => true
  | String c r =>
      (if Ascii.eqb c "{" then blocked_after last r else true) && braces_blocked last r
  end.

(** The character after a dollar sign that makes a replacement pattern. *)
Definition pattern_char (d : ascii) : bool :=
  Ascii.eqb d "$" || Ascii.eqb d "&" || Ascii.eqb d "`" || Ascii.eqb d "'".

(** [s] holds none of the replacement patterns [$$], [$&], [$`], [$']. *)
Fixpoint no_dollar_pattern (s : string) : bool :=
  match s with
  | EmptyString => true
  | String c r =>
      (if Ascii.eqb c "$" then
         match r with
         | EmptyString => true
         | String d _ => negb (pattern_char d)
         end
       else true) && no_dollar_pattern r
  end.

(** The text between the placeholders of a template holds no opening
    brace that opens a further placeholder or could come to. *)
Fixpoint harmless (tpl : list Piece) : bool :=
  match tpl with
  | [] => true
  | Text s :: rest =>
      braces_blocked (match rest with [] => true | _ :: _ => false end) s && harmless rest
  | Hole _ :: rest => harmless rest
  end.

(** The string form of an argument holds no replacement pattern and no
    opening brace that opens a placeholder or could come to. *)
Definition harmless_arg (arg : Arg) : bool :=
  no_dollar_pattern (String_ arg) && braces_blocked false (String_ arg).

End Placeholder.

(** ** JSON.stringify of the tool result *)

Module Json.

Definition dquote : ascii := ascii_of_nat 34.
Definition backslash : ascii := ascii_of_nat 92.

Definition hexDigit (n : nat) : ascii :=
  match n with
  | 0 => "0" | 1 => "1" | 2 => "2" | 3 => "3" | 4 => "4" | 5 => "5" | 6 => "6"
  | 7 => "7" | 8 => "8" | 9 => "9" | 10 => "a" | 11 => "b" | 12 => "c"
  | 13 => "d" | 14 => "e" | _ => "f"
  end%char.

(** One code unit as QuoteJSONString of ECMA-262 writes it: the short
    escapes, [\u00xx] for the other control characters, and the
    character itself otherwise. *)
Definition QuoteJSONChar (c : ascii) : string :=
  let n := nat_of_ascii c in
  if (n =? 8)%nat then String backslash "b"
  else if (n =? 9)%nat then String backslash "t"
  else if (n =? 10)%nat then String backslash "n"
  else if (n =? 12)%nat then String backslash "f"
  else if (n =? 13)%nat then String backslash "r"
  else if (n =? 34)%nat then String backslash (String dquote "")
  else if (n =? 92)%nat then String backslash (String backslash "")
  else if (n <? 32)%nat then
    String backslash
      (String "u" (String "0" (String "0"
         (String (hexDigit (n / 16)) (String (hexDigit (n mod 16)) "")))))
  else String c "".

Fixpoint QuoteJSONBody (s : string) : string :=
  match s with
  | EmptyString => EmptyString
  | String c s' => QuoteJSONChar c +:+ QuoteJSONBody s'
  end.

Definition QuoteJSONString (s : string) : string :=
  String dquote (QuoteJSONBody s +:+ String dquote "").

(** [JSON.stringify({responded: result.responded, response: result.response})] *)
Definition stringify (result : UserResponseResult) : string :=
  "{" +:+ QuoteJSONString "responded" +:+ ":" +:+
  (if responded result then "true" else "false") +:+
  "," +:+ QuoteJSONString "response" +:+ ":" +:+
  QuoteJSONString (response result) +:+ "}".

Definition hexValue (c : ascii) : option nat :=
  let n := nat_of_ascii c in
  if (48 <=? n)%nat && (n <=? 57)%nat then Some (n - 48)
  else if (97 <=? n)%nat && (n <=? 102)%nat then Some (n - 87)
  else None.

(** Reading one code unit of a JSON string back, the way a JSON parser
    does; [None] at the closing quote, at a raw control character and at
    an escape that is not one. *)
Definition ReadJSONChar (s : string) : option (ascii * string) :=
  match s with
  | EmptyString => None
  | String c rest =>
      if Ascii.eqb c backslash then
        match rest with
        | String e rest' =>
            if Ascii.eqb e "b" then Some (ascii_of_nat 8, rest')
            else if Ascii.eqb e "t" then Some (ascii_of_nat 9, rest')
            else if Ascii.eqb e "n" then Some (ascii_of_nat 10, rest')
            else if Ascii.eqb e "f" then Some (ascii_of_nat 12, rest')
            else if Ascii.eqb e "r" then Some (ascii_of_nat 13, rest')
            else if Ascii.eqb e dquote then Some (dquote, rest')
            else if Ascii.eqb e backslash then Some (backslash, rest')
            else if Ascii.eqb e "u" then
              match rest' with
              | String "0" (String "0" (String h (String l rest''))) =>
                  match hexValue h, hexValue l with
                  | Some a, Some b => Some (ascii_of_nat (16 * a + b), rest'')
                  | _, _ => None
                  end
              | _ => None
              end
            else None
        | EmptyString => None
        end
      else if Ascii.eqb c dquote then None
      else if (nat_of_ascii c <? 32)%nat then None
      else Some (c, rest)
  end.

End Json.

(** ** src/tools.ts: the tool's [invoke] *)

Module Invoke.
Import Vscode WebviewProvider.

(** [prog] followed by a pure last step. *)
Fixpoint and_then {A B : Type} (prog : Host A) (f : A -> B) : Host B :=
  match prog with
  | Return a => Return (f a)
  | executeCommand command k => executeCommand command (and_then k f)
  | showWarningMessage message modal items k =>
      showWarningMessage message modal items (fun answer => and_then (k answer) f)
  | showInputBox title prompt placeHolder ignoreFocusOut k =>
      showInputBox title prompt placeHolder ignoreFocusOut
        (fun answer => and_then (k answer) f)
  end.

Section WithBundle.
Variable bundle : gmap string string.

(** The call [provider.waitForUserResponse(question, title)] that
    [invoke] makes through [askViaWebview], with the title it built. *)
Definition invoke_call (params : Tools.Input) (st : Provider) : Provider * Promise :=
  waitForUserResponse bundle (Tools.question params)
    (Some (Tools.invoke_title bundle params)) st.

(** The rest of [invoke] once that call has given [result]: the
    fallback when needed, then the text part of the tool result. *)
Definition invoke_return (params : Tools.Input) (result : UserResponseResult) : Host string :=
  and_then
    (Tools.askViaWebview bundle result (Tools.question params)
       (Tools.invoke_title bundle params))
    Json.stringify.

End WithBundle.
End Invoke.

(** ** src/webview/main.ts: showing a question *)

Module Panel.
Import WebviewProvider Webview.

Section WithRenderer.
(** [md.render] of markdown-it, which the script configures and calls. *)
Variable md_render : string -> string.

Definition renderMarkdown (content : string) : string :=
  match content with
  | EmptyString => EmptyString
  | _ => md_render content
  end.

(** [showQuestion(question, title)] of the webview script; the focus it
    gives to the textarea is not part of the document record. *)
Definition showQuestion (question : string) (title : option string) (doc : Document) : Document :=
  mkDocument
    (match emptyState doc with Some _ => Some true | None => None end)
    (match requestForm doc with Some _ => Some false | None => None end)
    (match questionTitle doc with
     | Some _ => Some (Tools.or_default title "Confirmation Required")
     | None => None
     end)
    (match questionContent doc with
     | Some _ => Some (renderMarkdown question)
     | None => None
     end)
    (match responseInput doc with Some _ => Some "" | None => None end).

(** The listener of [window] for messages from the extension host. *)
Definition onMessage (doc : Document) (message : ToWebviewMessage) : Document :=
  match message with
  | ShowQuestion question title => showQuestion question (Some title) doc
  | Clear => clearForm doc
  end.

(** The messages posted to a view, delivered in order. *)
Definition deliver (messages : list ToWebviewMessage) (doc : Document) : Document :=
  fold_left onMessage messages doc.

End WithRenderer.

(** The form can be used: it exists and is not hidden. *)
Definition form_visible (doc : Document) : bool :=
  match requestForm doc with
  | Some hidden => negb hidden
  | None => false
  end.

End Panel.

(** ** src/webviewProvider.ts: the nonce *)

Module Nonce.

Definition possible : string :=
  "ABCDEFGHIJKLMNOPQRSTUVWXYZabcdefghijklmnopqrstuvwxyz0123456789".

(** [s.charAt(pos)]: the empty string out of range. *)
Definition charAt (s : string) (pos : nat) : string :=
  match String.get pos s with
  | Some c => String c EmptyString
  | None => EmptyString
  end.

(** The loop of [_getNonce] with [count] rounds left at index [i];
    [draw i] is [Math.floor(Math.random() * possible.length)] in round
    [i]. *)
Fixpoint nonce_loop (count i : nat) (draw : nat -> nat) (text : string) : string :=
  match count with
  | 0 => text
  | S count' => nonce_loop count' (S i) draw (text +:+ charAt possible (draw i))
  end.

Definition _getNonce (draw : nat -> nat) : string :=
  nonce_loop 32 0 draw EmptyString.

Definition is_alphanumeric (c : ascii) : bool :=
  let n := nat_of_ascii c in
  ((48 <=? n) && (n <=? 57) || (65 <=? n) && (n <=? 90) || (97 <=? n) && (n <=? 122))%nat.

Fixpoint all_alphanumeric (s : string) : bool :=
  match s with
  | EmptyString => true
  | String c s' => is_alphanumeric c && all_alphanumeric s'
  end.

End Nonce.

(** ** Words for the properties of the added code *)

Module Accounting.
Import WebviewProvider.

(** The promises created are the resolved ones and the pending one; one
    notification was shown per promise. *)
Definition Accounted (st : Provider) : Prop :=
  promises st = length (resolutions st) +
                match _pendingRequest st with Some _ => 1 | None => 0 end /\
  length (notifications st) = promises st /\
  forall q, q < promises st ->
    q ∈ map fst (resolutions st) \/ _pendingRequest st = Some q.

(** The results a listener passes to a resolve function. *)
Definition delivered_ok (r : UserResponseResult) : Prop :=
  responded r = true \/ r = mkResult false "" \/ r = mkResult false "View was closed".

End Accounting.

Module Template.
Import Localization.

(** The arguments from index [k] on, each filling the first placeholder
    with its index, one after the other. *)
Fixpoint fill_each (k : nat) (args : list Arg) (tpl : list Piece) : list Piece :=
  match args with
  | [] => tpl
  | arg :: args' => fill_each (S k) args' (fill_first k (String_ arg) tpl)
  end.

(** How often the placeholder [{i}] occurs. *)
Definition occurrences (i : nat) (tpl : list Piece) : nat :=
  count_occ Nat.eq_dec (holes tpl) i.

End Template.

Module Typing.
Import Webview.

(** The human types [text] into the element the script found under the
    id response-input, when there is one. *)
Definition type_text (text : string) (doc : Document) : Document :=
  mkDocument (emptyState doc) (requestForm doc) (questionTitle doc)
    (questionContent doc)
    (match responseInput doc with Some _ => Some text | None => None end).

(** Every element the script looks up exists. *)
Definition complete (doc : Document) : Prop :=
  is_Some (emptyState doc) /\ is_Some (requestForm doc) /\
  is_Some (questionTitle doc) /\ is_Some (questionContent doc) /\
  is_Some (responseInput doc).

End Typing.

(** * Properties *)

Import WebviewProvider.

(** ** The broker: single steps *)

Lemma on_view_view f st : _view (on_view f st) = _view st.
Proof. unfold on_view. destruct (_view st) eqn:E; cbn; now rewrite ?E. Qed.

Lemma on_view_pending f st : _pendingRequest (on_view f st) = _pendingRequest st.
Proof. unfold on_view. now destruct (_view st). Qed.

Lemma on_view_promises f st : promises (on_view f st) = promises st.
Proof. unfold on_view. now destruct (_view st). Qed.

Lemma on_view_resolutions f st : resolutions (on_view f st) = resolutions st.
Proof. unfold on_view. now destruct (_view st). Qed.

Lemma on_view_notifications f st : notifications (on_view f st) = notifications st.
Proof. unfold on_view. now destruct (_view st). Qed.

Create Rewrite HintDb provider.

#[global] Hint Rewrite on_view_view on_view_pending on_view_promises on_view_resolutions
  on_view_notifications : provider.

Section Broker.
Variable bundle : gmap string string.

Lemma resolve_none result st :
  _pendingRequest st = None -> _resolvePendingRequest bundle result st = st.
Proof. intros E. unfold _resolvePendingRequest. now rewrite E. Qed.

Lemma resolve_some result st p :
  _pendingRequest st = Some p ->
  _pendingRequest (_resolvePendingRequest bundle result st) = None /\
  resolutions (_resolvePendingRequest bundle result st) = (p, result) :: resolutions st /\
  promises (_resolvePendingRequest bundle result st) = promises st /\
  _view (_resolvePendingRequest bundle result st) = _view st /\
  notifications (_resolvePendingRequest bundle result st) = notifications st.
Proof.
  intros E. unfold _resolvePendingRequest, _setBadge. rewrite E.
  now autorewrite with provider.
Qed.

(** A listener passes one result to [_resolvePendingRequest]. *)
Lemma trigger_resolves ev st :
  is_trigger ev = true ->
  exists result, step bundle st ev = _resolvePendingRequest bundle result st /\
    (ev = Dispose -> result = mkResult false "View was closed") /\
    (forall r, ev = Message (Submit r) -> result = mkResult true r) /\
    (ev = Message Cancel -> result = mkResult false "").
Proof.
  destruct ev as [v|[r|]| |q t]; cbn; intros H; try discriminate.
  - exists (mkResult true r). repeat split; congruence.
  - exists (mkResult false ""). repeat split; congruence.
  - exists (mkResult false "View was closed"). repeat split; congruence.
Qed.

Lemma ask_fields question title st v :
  _pendingRequest st = None -> _view st = Some v ->
  snd (waitForUserResponse bundle question title st) = Pending (promises st) /\
  _pendingRequest (fst (waitForUserResponse bundle question title st)) = Some (promises st) /\
  promises (fst (waitForUserResponse bundle question title st)) = S (promises st) /\
  resolutions (fst (waitForUserResponse bundle question title st)) = resolutions st /\
  _view (fst (waitForUserResponse bundle question title st)) = Some v.
Proof.
  intros Ep Ev. unfold waitForUserResponse. rewrite Ep, Ev. cbn.
  unfold _showNotification, _setBadge, showQuestion. cbn.
  now autorewrite with provider.
Qed.

Lemma on_view_heap_Some f st v :
  is_Some (heap st !! v) -> is_Some (heap (on_view f st) !! v).
Proof.
  unfold on_view. destruct (_view st) as [w|]; cbn; auto.
  intros [x Hx]. destruct (decide (w = v)) as [->|Hne].
  - exists (f x). now rewrite lookup_alter_eq, Hx.
  - exists x. now rewrite lookup_alter_ne.
Qed.

Lemma Inv_init : Inv init.
Proof.
  split; cbn; try discriminate.
  - intros p Hp. inversion Hp.
  - constructor.
Qed.

Lemma Inv_resolve result st : Inv st -> Inv (_resolvePendingRequest bundle result st).
Proof.
  intros I. destruct (_pendingRequest st) as [p|] eqn:E.
  2: { now rewrite resolve_none. }
  destruct (resolve_some result st p E) as (Hp & Hr & Hn & Hv & _).
  destruct (inv_fresh st I p E) as [Hlt Hnew].
  split.
  - intros q Hq. congruence.
  - intros q Hq. congruence.
  - intros q. rewrite Hr, Hn. cbn. intros Hq.
    apply elem_of_cons in Hq as [->|Hq]; [assumption | now apply (inv_bound st I)].
  - rewrite Hr. cbn. constructor; [assumption | apply (inv_once st I)].
  - intros v. rewrite Hv. intros Hv'.
    unfold _resolvePendingRequest. rewrite E. unfold _setBadge.
    apply on_view_heap_Some. cbn. now apply (inv_heap st I).
Qed.

Lemma Inv_step st ev : Inv st -> Inv (step bundle st ev).
Proof.
  intros I. destruct ev as [v|message| |question title]; cbn.
  - split; cbn; try apply I.
    + intros p _. now exists v.
    + intros w Hw. injection Hw as <-. rewrite lookup_insert_eq. now eexists.
  - destruct message; now apply Inv_resolve.
  - now apply Inv_resolve.
  - destruct (_pendingRequest st) as [p|] eqn:Ep.
    { unfold waitForUserResponse. now rewrite Ep. }
    destruct (_view st) as [v|] eqn:Ev.
    2: { unfold waitForUserResponse. now rewrite Ep, Ev. }
    destruct (ask_fields question title st v Ep Ev) as (_ & Hp & Hn & Hr & Hv).
    split.
    + intros q _. rewrite Hv. now eexists.
    + intros q. rewrite Hp, Hn, Hr. intros [= <-]. split; [lia|].
      intros Hin. apply (inv_bound st I) in Hin. lia.
    + intros q. rewrite Hr, Hn. intros Hq. apply (inv_bound st I) in Hq. lia.
    + rewrite Hr. apply I.
    + intros w. rewrite Hv. intros [= <-].
      unfold waitForUserResponse. rewrite Ep, Ev.
      unfold _showNotification, _setBadge, showQuestion. cbn [fst heap].
      repeat apply on_view_heap_Some. cbn [heap]. now apply (inv_heap st I).
Qed.

Lemma run_cons ev evs st :
  run bundle (ev :: evs) st = run bundle evs (step bundle st ev).
Proof. reflexivity. Qed.

Lemma run_snoc evs ev st :
  run bundle (evs ++ [ev]) st = step bundle (run bundle evs st) ev.
Proof. unfold run. now rewrite fold_left_app. Qed.

Lemma Inv_run evs st : Inv st -> Inv (run bundle evs st).
Proof.
  revert st. induction evs as [|ev evs IH]; intros st I; [assumption|].
  rewrite run_cons. apply IH. now apply Inv_step.
Qed.

Lemma reachable_Inv st : reachable bundle st -> Inv st.
Proof. intros [evs ->]. apply Inv_run, Inv_init. Qed.

Lemma reachable_step st ev : reachable bundle st -> reachable bundle (step bundle st ev).
Proof.
  intros [evs ->]. exists (evs ++ [ev])%list. now rewrite run_snoc.
Qed.

Lemma filter_fst_fresh (p : nat) (rs : list (nat * UserResponseResult)) :
  p ∉ map fst rs -> filter (fun e => fst e = p) rs = [].
Proof.
  induction rs as [|[q r] rs IH]; [reflexivity|].
  intros Hnew. cbn in Hnew. apply not_elem_of_cons in Hnew as [Hq Hrs].
  rewrite filter_cons_False; [now apply IH|].
  cbn. intros Heq. now apply Hq.
Qed.

Lemma outcomes_cons_eq p result st rs :
  resolutions st = (p, result) :: rs ->
  p ∉ map fst rs ->
  outcomes p st = [result].
Proof.
  intros E Hnew. unfold outcomes. rewrite E.
  rewrite filter_cons_True by reflexivity.
  now rewrite filter_fst_fresh.
Qed.

(** While promise [p] is the pending one, a listener resolves it once. *)
Lemma pending_resolves st p ev :
  Inv st -> _pendingRequest st = Some p -> is_trigger ev = true ->
  exists result,
    step bundle st ev = _resolvePendingRequest bundle result st /\
    outcomes p (step bundle st ev) = [result] /\
    _pendingRequest (step bundle st ev) = None /\
    promises (step bundle st ev) = promises st /\
    (ev = Dispose -> result = mkResult false "View was closed") /\
    (forall r, ev = Message (Submit r) -> result = mkResult true r) /\
    (ev = Message Cancel -> result = mkResult false "").
Proof.
  intros I E T. destruct (trigger_resolves ev st T) as (result & Hs & H1 & H2 & H3).
  exists result. rewrite Hs.
  destruct (resolve_some result st p E) as (Hp & Hr & Hn & _).
  repeat split; try assumption.
  eapply outcomes_cons_eq; [exact Hr|]. now apply (inv_fresh st I).
Qed.

(** A promise that is not the pending one keeps its outcomes. *)
Lemma outcomes_step st p ev :
  p < promises st -> _pendingRequest st <> Some p ->
  outcomes p (step bundle st ev) = outcomes p st /\
  p < promises (step bundle st ev) /\
  _pendingRequest (step bundle st ev) <> Some p.
Proof.
  intros Hlt Hne.
  assert (R : forall result,
    outcomes p (_resolvePendingRequest bundle result st) = outcomes p st /\
    p < promises (_resolvePendingRequest bundle result st) /\
    _pendingRequest (_resolvePendingRequest bundle result st) <> Some p).
  { intros result. destruct (_pendingRequest st) as [q|] eqn:E.
    2: { rewrite resolve_none by assumption. now rewrite E. }
    destruct (resolve_some result st q E) as (Hp & Hr & Hn & _).
    rewrite Hp, Hn. repeat split; [|assumption|discriminate].
    unfold outcomes. rewrite Hr.
    rewrite filter_cons_False; [reflexivity|].
    cbn. intros Heq. apply Hne. now rewrite Heq. }
  destruct ev as [v|message| |question title]; cbn.
  - auto.
  - destruct message; apply R.
  - apply R.
  - destruct (_pendingRequest st) as [q|] eqn:Ep.
    { unfold waitForUserResponse. rewrite Ep. cbn. now rewrite Ep. }
    destruct (_view st) as [v|] eqn:Ev.
    2: { unfold waitForUserResponse. rewrite Ep, Ev. cbn. now rewrite Ep. }
    destruct (ask_fields question title st v Ep Ev) as (_ & Hp & Hn & Hr & Hv).
    unfold outcomes. rewrite Hr, Hn, Hp. repeat split; [lia|].
    intros [= Heq]. lia.
Qed.

Lemma outcomes_run evs st p :
  p < promises st -> _pendingRequest st <> Some p ->
  outcomes p (run bundle evs st) = outcomes p st.
Proof.
  revert st. induction evs as [|ev evs IH]; intros st Hlt Hne; [reflexivity|].
  destruct (outcomes_step st p ev Hlt Hne) as (Ho & Hlt' & Hne').
  rewrite run_cons. now rewrite IH.
Qed.

End Broker.

(** ** The broker: the claims *)

(** C2. An ask made while the slot is occupied returns at once with the
    busy result and leaves the provider as it was: the slot still holds
    the same resolve function, the badge and the log of resolutions are
    unchanged, and the pending promise is afterwards resolved by a
    submit, a cancel or a disposal with that event's own result. *)
Theorem busy_ask_changes_nothing (bundle : gmap string string)
  (question : string) (title : option string) (st : Provider) (p : nat) :
  reachable bundle st ->
  _pendingRequest st = Some p ->
  let st' := fst (waitForUserResponse bundle question title st) in
  waitForUserResponse bundle question title st =
    (st, Fulfilled (mkResult false "Another request is already pending.")) /\
  _pendingRequest st' = Some p /\
  BadgeState st' = BadgeState st /\
  resolutions st' = resolutions st /\
  (forall r, outcomes p (step bundle st' (Message (Submit r))) = [mkResult true r]) /\
  outcomes p (step bundle st' (Message Cancel)) = [mkResult false ""] /\
  outcomes p (step bundle st' Dispose) = [mkResult false "View was closed"].
Proof.
  intros R E st'.
  assert (W : waitForUserResponse bundle question title st =
    (st, Fulfilled (mkResult false "Another request is already pending."))).
  { unfold waitForUserResponse. now rewrite E. }
  subst st'. rewrite W. cbn [fst].
  pose proof (reachable_Inv bundle st R) as I.
  repeat split; try assumption.
  - intros r.
    destruct (pending_resolves bundle st p (Message (Submit r)) I E eq_refl)
      as (result & _ & Ho & _ & _ & _ & Hs & _).
    now rewrite Ho, (Hs r eq_refl).
  - destruct (pending_resolves bundle st p (Message Cancel) I E eq_refl)
      as (result & _ & Ho & _ & _ & _ & _ & Hc).
    now rewrite Ho, (Hc eq_refl).
  - destruct (pending_resolves bundle st p Dispose I E eq_refl)
      as (result & _ & Ho & _ & _ & Hd & _).
    now rewrite Ho, (Hd eq_refl).
Qed.

Lemma busy_ask_changes_nothing_witness :
  let st := run ∅ [Resolve 1; Ask "Q" None] init in
  waitForUserResponse ∅ "again" (Some "T") st =
    (st, Fulfilled (mkResult false "Another request is already pending.")) /\
  outcomes 0 (step ∅ (fst (waitForUserResponse ∅ "again" (Some "T") st))
                (Message (Submit "hi"))) = [mkResult true "hi"].
Proof.
  intros st.
  destruct (busy_ask_changes_nothing ∅ "again" (Some "T") st 0)
    as (H1 & _ & _ & _ & H2 & _).
  - exists [Resolve 1; Ask "Q" None]. reflexivity.
  - reflexivity.
  - split; [exact H1 | exact (H2 "hi")].
Defined.

(** C4. A pending request is resolved exactly once.  When a listener
    (submit, cancel or disposal) fires while promise [p] is pending, [p]
    is resolved with one result, which is "View was closed" for a
    disposal, and the slot is emptied in the same step.  From then on a
    further submit, cancel or disposal leaves the provider unchanged,
    and whatever happens later, [p] keeps that single result. *)
Theorem pending_request_resolved_once (bundle : gmap string string)
  (st : Provider) (p : nat) (ev : Event) :
  reachable bundle st ->
  _pendingRequest st = Some p ->
  is_trigger ev = true ->
  let st' := step bundle st ev in
  exists result,
    outcomes p st' = [result] /\
    (ev = Dispose -> result = mkResult false "View was closed") /\
    _pendingRequest st' = None /\
    (forall ev', is_trigger ev' = true -> step bundle st' ev' = st') /\
    (forall evs, outcomes p (run bundle evs st') = [result]).
Proof.
  intros R E T st'. pose proof (reachable_Inv bundle st R) as I.
  destruct (pending_resolves bundle st p ev I E T)
    as (result & _ & Ho & Hp & Hn & Hd & _).
  destruct (inv_fresh st I p E) as [Hlt _].
  exists result. subst st'. repeat split; try assumption.
  - intros ev' T'.
    destruct (trigger_resolves bundle ev' (step bundle st ev) T') as (r' & -> & _).
    now apply resolve_none.
  - intros evs. rewrite outcomes_run; [assumption | lia | congruence].
Qed.

Lemma pending_request_resolved_once_witness :
  let st := run ∅ [Resolve 1; Ask "Q" None] init in
  outcomes 0 (step ∅ st Dispose) = [mkResult false "View was closed"] /\
  step ∅ (step ∅ st Dispose) Dispose = step ∅ st Dispose /\
  outcomes 0 (run ∅ [Message (Submit "late"); Dispose; Ask "Q2" None; Message Cancel]
                (step ∅ st Dispose)) = [mkResult false "View was closed"].
Proof.
  intros st.
  destruct (pending_request_resolved_once ∅ st 0 Dispose)
    as (result & H1 & H2 & _ & H3 & H4).
  - exists [Resolve 1; Ask "Q" None]. reflexivity.
  - reflexivity.
  - reflexivity.
  - rewrite (H2 eq_refl) in H1, H4.
    split; [exact H1 | split; [exact (H3 Dispose eq_refl) | apply H4]].
Defined.

(** C6. While promise [p] is pending, a submit message with payload [r]
    resolves it with [{responded: true, response: r}], the payload as it
    came, and a cancel message resolves it with
    [{responded: false, response: ""}]. *)
Theorem submit_and_cancel_results (bundle : gmap string string)
  (st : Provider) (p : nat) (r : string) :
  reachable bundle st ->
  _pendingRequest st = Some p ->
  outcomes p (step bundle st (Message (Submit r))) = [mkResult true r] /\
  outcomes p (step bundle st (Message Cancel)) = [mkResult false ""].
Proof.
  intros R E. pose proof (reachable_Inv bundle st R) as I. split.
  - destruct (pending_resolves bundle st p (Message (Submit r)) I E eq_refl)
      as (result & _ & Ho & _ & _ & _ & Hs & _).
    now rewrite Ho, (Hs r eq_refl).
  - destruct (pending_resolves bundle st p (Message Cancel) I E eq_refl)
      as (result & _ & Ho & _ & _ & _ & _ & Hc).
    now rewrite Ho, (Hc eq_refl).
Qed.

Lemma submit_and_cancel_results_witness :
  let st := run ∅ [Resolve 1; Ask "Q" None] init in
  outcomes 0 (step ∅ st (Message (Submit "hi"))) = [mkResult true "hi"] /\
  outcomes 0 (step ∅ st (Message Cancel)) = [mkResult false ""].
Proof.
  intros st. apply (submit_and_cancel_results ∅ st 0 "hi").
  - exists [Resolve 1; Ask "Q" None]. reflexivity.
  - reflexivity.
Defined.

(** C1, on the failing input.  The view at address 1 is resolved and then
    disposed.  The disposal listener leaves [_view] as it is, so the
    next ask does not return the "not available" result: it installs a
    pending request on the disposed view and hands back a pending
    promise. *)
Theorem ask_after_dispose_is_not_refused (bundle : gmap string string) :
  let st := run bundle [Resolve 1; Dispose] init in
  _view st = Some 1 /\
  _pendingRequest st = None /\
  snd (waitForUserResponse bundle "Q" None st) = Pending 0 /\
  _pendingRequest (fst (waitForUserResponse bundle "Q" None st)) = Some 0 /\
  outcomes 0 (fst (waitForUserResponse bundle "Q" None st)) = [].
Proof. cbv zeta. repeat split. Qed.

(** C5, on the failing input.  After the view at address 1 was disposed,
    an ask is accepted on it; when the host then attaches the view at
    address 2, a request is pending and the attached view has no
    badge. *)
Theorem badge_missing_after_reattach (bundle : gmap string string) :
  let st := run bundle [Resolve 1; Dispose; Ask "Q" None; Resolve 2] init in
  _pendingRequest st = Some 0 /\
  _view st = Some 2 /\
  BadgeState st = 0 /\
  (badge <$> heap st !! 1) =
    Some (Some {| value := 1; tooltip := Localization.inputRequired bundle |}).
Proof. cbv zeta. repeat split. Qed.

(** ** Strings: [trim] *)

Arguments JS.isWhiteSpace c : simpl never.

Lemma trimStart_all_whitespace s :
  JS.all_whitespace s = true -> JS.trimStart s = "".
Proof.
  induction s as [|c s IH]; cbn; [reflexivity|].
  destruct (JS.isWhiteSpace c); cbn; [exact IH | discriminate].
Qed.

Lemma trim_all_whitespace s :
  JS.all_whitespace s = true -> JS.trim s = "".
Proof. intros H. unfold JS.trim. now rewrite trimStart_all_whitespace. Qed.

Lemma append_cons (c : ascii) (a b : string) :
  String c a +:+ b = String c (a +:+ b).
Proof. reflexivity. Qed.

Lemma append_empty_l (a : string) : "" +:+ a = a.
Proof. reflexivity. Qed.

Lemma trimStart_split s :
  exists l, s = l +:+ JS.trimStart s /\ JS.all_whitespace l = true.
Proof.
  induction s as [|c s (l & E & W)]; cbn.
  - now exists "".
  - destruct (JS.isWhiteSpace c) eqn:C.
    + exists (String c l). cbn. rewrite C, W, append_cons.
      split; [now f_equal | reflexivity].
    + now exists "".
Qed.

Lemma trimStart_first s : JS.is_space (JS.first_char (JS.trimStart s)) = false.
Proof.
  induction s as [|c s IH]; cbn; [reflexivity|].
  destruct (JS.isWhiteSpace c) eqn:C; [exact IH | cbn; exact C].
Qed.

Lemma trimEnd_split s :
  exists r, s = JS.trimEnd s +:+ r /\ JS.all_whitespace r = true.
Proof.
  induction s as [|c s (r & E & W)]; cbn.
  - now exists "".
  - destruct (JS.trimEnd s) as [|d t] eqn:T.
    + destruct (JS.isWhiteSpace c) eqn:C.
      * exists (String c r). rewrite append_empty_l in *. cbn. rewrite C, W.
        split; [now f_equal | reflexivity].
      * exists r. rewrite append_cons. split; [now f_equal | assumption].
    + exists r. rewrite append_cons. split; [now f_equal | assumption].
Qed.

Lemma trimEnd_last s : JS.is_space (JS.last_char (JS.trimEnd s)) = false.
Proof.
  induction s as [|c s IH]; cbn; [reflexivity|].
  destruct (JS.trimEnd s) as [|d t] eqn:T.
  - destruct (JS.isWhiteSpace c) eqn:C; cbn; [reflexivity | exact C].
  - exact IH.
Qed.

Lemma trimEnd_first s :
  JS.is_space (JS.first_char s) = false ->
  JS.is_space (JS.first_char (JS.trimEnd s)) = false.
Proof.
  destruct s as [|c s]; cbn; [reflexivity|]. intros C.
  destruct (JS.trimEnd s); [rewrite C|]; cbn; exact C.
Qed.

Lemma append_assoc (a b c : string) : (a +:+ b) +:+ c = a +:+ (b +:+ c).
Proof.
  induction a as [|x a IH]; [reflexivity|].
  rewrite !append_cons. now f_equal.
Qed.

Lemma append_empty_r (a : string) : a +:+ "" = a.
Proof.
  induction a as [|x a IH]; [reflexivity|].
  rewrite append_cons. now f_equal.
Qed.

(** [trim s] is [s] without a leading and a trailing run of white
    space, and neither starts nor ends with white space. *)
Lemma trim_spec s :
  (exists l r, s = l +:+ JS.trim s +:+ r /\
     JS.all_whitespace l = true /\ JS.all_whitespace r = true) /\
  JS.is_space (JS.first_char (JS.trim s)) = false /\
  JS.is_space (JS.last_char (JS.trim s)) = false.
Proof.
  unfold JS.trim. split; [|split].
  - destruct (trimStart_split s) as (l & El & Wl).
    destruct (trimEnd_split (JS.trimStart s)) as (r & Er & Wr).
    exists l, r. split; [|auto]. rewrite <- Er. exact El.
  - apply trimEnd_first, trimStart_first.
  - apply trimEnd_last.
Qed.

(** ** tools.ts: the fallback prompt and the adapter *)

Import Vscode.

Lemma viewNotAvailable_spec result :
  Tools.viewNotAvailable result = true <->
  result = mkResult false "Agent Console view is not available.".
Proof.
  destruct result as [b r]. unfold Tools.viewNotAvailable. cbn [responded response].
  rewrite andb_true_iff, negb_true_iff, String.eqb_eq. split.
  - intros [-> ->]. reflexivity.
  - intros [= -> ->]. auto.
Qed.

(** C8. The fallback prompt, run against any human.  If the answer to
    the alert is not the action button, the result is
    [{responded: false, response: ""}] and the text entry is never
    opened; if the button is pressed and the text entry is dismissed, the
    result is the same; if text [t] is submitted, the result is
    [{responded: trim(t).length > 0, response: t}] with [t] as typed, so
    a white-space-only [t] gives [responded: false]. *)
Theorem fallback_prompt_protocol (bundle : gmap string string)
  (question title : string) (human : Call -> option string) :
  let buttonText := Localization.respond bundle in
  let focus := CommandCall "workbench.action.focusActiveEditorGroup" in
  let alert :=
    WarningCall (Localization.confirmationRequired bundle +:+ ": " +:+ question)
      false [buttonText] in
  let entry := InputBoxCall title question (Localization.inputPlaceholder bundle) true in
  let result := Vscode.interact human (Tools.askViaVSCode bundle question title) in
  (human alert <> Some buttonText ->
     result = ([focus; alert], mkResult false "") /\
     forallb (fun call => negb (isInputBox call)) (fst result) = true) /\
  (human alert = Some buttonText -> human entry = None ->
     result = ([focus; alert; entry], mkResult false "")) /\
  (forall t, human alert = Some buttonText -> human entry = Some t ->
     result = ([focus; alert; entry],
               mkResult (0 <? String.length (JS.trim t))%nat t) /\
     (JS.all_whitespace t = true -> snd result = mkResult false t)).
Proof.
  cbv zeta. unfold Tools.askViaVSCode. cbn [Vscode.interact].
  set (alert := WarningCall _ _ _). set (entry := InputBoxCall _ _ _ _).
  split; [|split].
  - intros H. destruct (decide (human alert <> Some (Localization.respond bundle))) as [_|N].
    + cbn. auto.
    + contradiction.
  - intros Ha He.
    destruct (decide (human alert <> Some (Localization.respond bundle))) as [N|_].
    + contradiction.
    + cbn [Vscode.interact]. fold entry. now rewrite He.
  - intros t Ha He.
    destruct (decide (human alert <> Some (Localization.respond bundle))) as [N|_].
    + contradiction.
    + cbn [Vscode.interact]. fold entry. rewrite He. cbn. split; [reflexivity|].
      intros W. now rewrite trim_all_whitespace.
Qed.

(** The scenarios of C8 with the bundle [{button.respond: "Respond"}]:
    dismissing the alert, submitting the empty string, submitting blanks
    and submitting "42". *)
Lemma fallback_prompt_protocol_witness :
  let bundle : gmap string string := {[ "button.respond" := "Respond" ]} in
  let press (answer : option string) (call : Call) :=
    match call with
    | WarningCall _ _ _ => Some "Respond"
    | _ => answer
    end in
  snd (Vscode.interact (fun _ => None) (Tools.askViaVSCode bundle "Q" "T")) = mkResult false "" /\
  snd (Vscode.interact (press (Some "")) (Tools.askViaVSCode bundle "Q" "T")) = mkResult false "" /\
  snd (Vscode.interact (press (Some "  ")) (Tools.askViaVSCode bundle "Q" "T")) = mkResult false "  " /\
  snd (Vscode.interact (press (Some "42")) (Tools.askViaVSCode bundle "Q" "T")) = mkResult true "42".
Proof.
  intros bundle press.
  pose proof (fallback_prompt_protocol bundle "Q" "T" (fun _ => None)) as (H0 & _).
  pose proof (fallback_prompt_protocol bundle "Q" "T" (press (Some ""))) as (_ & _ & H1).
  pose proof (fallback_prompt_protocol bundle "Q" "T" (press (Some "  "))) as (_ & _ & H2).
  pose proof (fallback_prompt_protocol bundle "Q" "T" (press (Some "42"))) as (_ & _ & H3).
  split; [|split; [|split]].
  - destruct H0 as [E _]; [discriminate|]. now rewrite E.
  - destruct (H1 "" eq_refl eq_refl) as [E _]. now rewrite E.
  - destruct (H2 "  " eq_refl eq_refl) as [_ E]. now apply E.
  - destruct (H3 "42" eq_refl eq_refl) as [E _]. now rewrite E.
Defined.

(** C3, as amended.  The adapter runs the fallback prompt exactly when
    the awaited broker result is [{responded: false, response: "Agent
    Console view is not available."}], which is what the broker returns
    while no view was ever resolved, and then returns what the fallback
    returns.  Every other result (a submit, a cancel, busy, view closed)
    is returned as it is, without any dialog.  So the sentinel result
    never reaches the agent; its text reaches the agent only as the
    response of a result with [responded: true], that is, as text the
    human entered. *)
Theorem fallback_exactly_on_sentinel (bundle : gmap string string)
  (result : UserResponseResult) (question title : string)
  (human : Call -> option string) :
  let unavailable := mkResult false "Agent Console view is not available." in
  let adapter := Tools.askViaWebview bundle result question title in
  waitForUserResponse bundle question (Some title) init = (init, Fulfilled unavailable) /\
  (result = unavailable <-> adapter = Tools.askViaVSCode bundle question title) /\
  (result <> unavailable <-> adapter = Return result) /\
  (forall r, Tools.askViaWebview bundle (mkResult true r) question title
             = Return (mkResult true r)) /\
  Tools.askViaWebview bundle (mkResult false "") question title
    = Return (mkResult false "") /\
  Tools.askViaWebview bundle (mkResult false "Another request is already pending.")
    question title = Return (mkResult false "Another request is already pending.") /\
  Tools.askViaWebview bundle (mkResult false "View was closed") question title
    = Return (mkResult false "View was closed") /\
  snd (Vscode.interact human adapter) <> unavailable /\
  (response (snd (Vscode.interact human adapter)) = "Agent Console view is not available." ->
   responded (snd (Vscode.interact human adapter)) = true).
Proof.
  cbv zeta.
  assert (F : forall h, snd (Vscode.interact h (Tools.askViaVSCode bundle question title))
                        = mkResult false "" \/
              exists t, snd (Vscode.interact h (Tools.askViaVSCode bundle question title))
                        = mkResult (0 <? String.length (JS.trim t))%nat t).
  { intros h. unfold Tools.askViaVSCode. cbn [Vscode.interact].
    destruct (decide _) as [_|_]; cbn [Vscode.interact]; [left; reflexivity|].
    destruct (h (InputBoxCall _ _ _ _)) as [t|]; [right; now exists t | left; reflexivity]. }
  assert (G : forall h, response (snd (Vscode.interact h (Tools.askViaVSCode bundle question title)))
                        = "Agent Console view is not available." ->
              responded (snd (Vscode.interact h (Tools.askViaVSCode bundle question title))) = true).
  { intros h. destruct (F h) as [->|[t ->]]; cbn [response responded].
    - discriminate.
    - intros ->. reflexivity. }
  unfold Tools.askViaWebview.
  destruct (Tools.viewNotAvailable result) eqn:V.
  - apply viewNotAvailable_spec in V. subst result.
    repeat split; try reflexivity; try discriminate; try congruence.
    + intros H. assert (T : responded (mkResult false "Agent Console view is not available.") = true).
      { rewrite <- H. apply G. now rewrite H. }
      discriminate T.
    + apply G.
  - assert (N : result <> mkResult false "Agent Console view is not available.").
    { intros H. apply viewNotAvailable_spec in H. congruence. }
    repeat split; try reflexivity; try discriminate; try congruence; cbn;
      try assumption.
    intros H. destruct result as [[] r]; cbn in *; [reflexivity|]. congruence.
Qed.

(** ** webview/main.ts: what the form submits *)

Import Webview.

(** C10. The submit message of the form carries the textarea's content
    with the leading and the trailing white space removed, never the raw
    text; it is the empty string when the content is empty or white
    space only. *)
Theorem handleSubmit_posts_trimmed (doc : Document) (text : string) :
  responseInput doc = Some text ->
  fst (handleSubmit doc) = Submit (JS.trim text) /\
  (exists l r, text = l +:+ JS.trim text +:+ r /\
     JS.all_whitespace l = true /\ JS.all_whitespace r = true) /\
  JS.is_space (JS.first_char (JS.trim text)) = false /\
  JS.is_space (JS.last_char (JS.trim text)) = false /\
  (JS.all_whitespace text = true -> fst (handleSubmit doc) = Submit "").
Proof.
  intros E. unfold handleSubmit, submitted_response. cbn [fst]. rewrite E.
  assert (O : JS.or_else (JS.trim text) "" = JS.trim text).
  { now destruct (JS.trim text). }
  rewrite O. destruct (trim_spec text) as (S1 & S2 & S3).
  repeat split; try assumption.
  intros W. now rewrite trim_all_whitespace.
Qed.

Lemma handleSubmit_posts_trimmed_witness :
  fst (handleSubmit (form_with "  hi there  ")) = Submit "hi there" /\
  fst (handleSubmit (form_with "   ")) = Submit "" /\
  fst (handleSubmit (form_with "")) = Submit "".
Proof.
  split; [|split].
  - exact (proj1 (handleSubmit_posts_trimmed (form_with "  hi there  ") "  hi there  " eq_refl)).
  - exact (proj2 (proj2 (proj2 (proj2
      (handleSubmit_posts_trimmed (form_with "   ") "   " eq_refl)))) eq_refl).
  - exact (proj1 (handleSubmit_posts_trimmed (form_with "") "" eq_refl)).
Defined.

(** C7, on the failing input.  The human leaves the textarea blank and
    presses Submit: the form posts an empty response and the provider
    resolves the pending promise with [{responded: true, response: ""}].
    The fallback prompt, given the same blank answer, says
    [responded: false]. *)
Theorem blank_submission_counts_as_responded (bundle : gmap string string) :
  let message := fst (handleSubmit (form_with "   ")) in
  let st := run bundle [Resolve 1; Ask "Q" None; Message message] init in
  message = Submit "" /\
  outcomes 0 st = [mkResult true ""] /\
  snd (Vscode.interact
         (fun call => match call with
                      | WarningCall _ _ _ => Some (Localization.respond bundle)
                      | _ => Some "   "
                      end)
         (Tools.askViaVSCode bundle "Q" "T")) = mkResult false "   ".
Proof.
  cbv zeta. split; [reflexivity | split; [reflexivity|]].
  unfold Tools.askViaVSCode. cbn [Vscode.interact].
  destruct (decide _) as [N|_]; [now contradiction N | reflexivity].
Qed.

(** ** localization.ts: [replace] on templates *)

Import Localization.

Arguments Ascii.eqb a b : simpl never.

Lemma strip_prefix_append p s : JS.strip_prefix p (p +:+ s) = Some s.
Proof.
  induction p as [|c p IH]; [reflexivity|].
  rewrite append_cons. cbn. now rewrite Ascii.eqb_refl.
Qed.

Lemma has_char_append c a b :
  JS.has_char c (a +:+ b) = JS.has_char c a || JS.has_char c b.
Proof.
  induction a as [|x a IH]; [reflexivity|].
  rewrite append_cons. cbn. now rewrite IH, orb_assoc.
Qed.

(** A pattern cannot match where its first character does not occur. *)
Lemma split_at_first_skip c pat s t :
  JS.has_char c s = false ->
  JS.split_at_first (String c pat) (s +:+ t) =
    match JS.split_at_first (String c pat) t with
    | Some (preceding, following) => Some (s +:+ preceding, following)
    | None => None
    end.
Proof.
  induction s as [|x s IH]; intros H.
  - rewrite append_empty_l. now destruct (JS.split_at_first _ t) as [[? ?]|].
  - cbn in H. apply orb_false_iff in H as [Hx Hs].
    rewrite append_cons. cbn [JS.split_at_first JS.strip_prefix]. rewrite Hx.
    rewrite (IH Hs).
    now destruct (JS.split_at_first (String c pat) t) as [[? ?]|].
Qed.

Lemma split_at_first_here pat t :
  JS.split_at_first pat (pat +:+ t) = Some ("", t).
Proof.
  destruct (pat +:+ t) eqn:E; cbn; rewrite <- E, strip_prefix_append; reflexivity.
Qed.

(** The digits of an index hold no brace. *)
Lemma ofIndex_no_brace index :
  JS.has_char "{" (JS.ofIndex index) = false /\
  JS.has_char "}" (JS.ofIndex index) = false.
Proof.
  unfold JS.ofIndex. generalize (Nat.to_uint index). intros d.
  induction d as [|d [IH1 IH2]|d [IH1 IH2]|d [IH1 IH2]|d [IH1 IH2]|d [IH1 IH2]
                  |d [IH1 IH2]|d [IH1 IH2]|d [IH1 IH2]|d [IH1 IH2]|d [IH1 IH2]];
    cbn [NilEmpty.string_of_uint JS.has_char]; rewrite ?IH1, ?IH2; split; reflexivity.
Qed.

Lemma ofIndex_inj i j : JS.ofIndex i = JS.ofIndex j -> i = j.
Proof.
  unfold JS.ofIndex. intros H.
  apply Unsigned.to_uint_inj.
  apply (f_equal NilEmpty.uint_of_string) in H.
  rewrite !NilEmpty.usu in H. congruence.
Qed.

(** Two runs of brace-free text, each closed by a brace: if one is a
    prefix of the other, they are the same. *)
Lemma strip_prefix_closed a b t rest :
  JS.has_char "}" a = false -> JS.has_char "}" b = false ->
  JS.strip_prefix (a +:+ "}") (b +:+ "}" +:+ t) = Some rest -> a = b.
Proof.
  revert b. induction a as [|x a IH]; intros [|y b] Ha Hb H.
  - reflexivity.
  - rewrite append_empty_l, append_cons in H. cbn in H, Hb.
    apply orb_false_iff in Hb as [Hy _]. now rewrite Hy in H.
  - rewrite append_empty_l, !append_cons in H. cbn in H, Ha.
    apply orb_false_iff in Ha as [Hx _].
    rewrite Ascii.eqb_sym in Hx. rewrite Hx in H. discriminate.
  - rewrite !append_cons in H. cbn in H, Ha, Hb.
    apply orb_false_iff in Ha as [_ Ha]. apply orb_false_iff in Hb as [_ Hb].
    destruct (Ascii.eqb_spec x y) as [->|]; [|discriminate].
    f_equal. now apply (IH b).
Qed.

Lemma placeholder_head index :
  placeholder index = String "{" (JS.ofIndex index +:+ "}").
Proof. reflexivity. Qed.

(** [{i}] does not match at the start of [{j}] for another [j]. *)
Lemma strip_prefix_other_placeholder i j t :
  j <> i -> JS.strip_prefix (placeholder i) (placeholder j +:+ t) = None.
Proof.
  intros Hne. rewrite !placeholder_head, append_cons, append_assoc.
  cbn [JS.strip_prefix]. rewrite Ascii.eqb_refl.
  destruct (JS.strip_prefix _ _) as [rest|] eqn:E; [|reflexivity].
  exfalso. apply Hne. apply ofIndex_inj. symmetry.
  eapply strip_prefix_closed; [apply ofIndex_no_brace .. | exact E].
Qed.

Lemma split_at_first_other_placeholder i j t :
  j <> i ->
  JS.split_at_first (placeholder i) (placeholder j +:+ t) =
    match JS.split_at_first (placeholder i) t with
    | Some (preceding, following) => Some (placeholder j +:+ preceding, following)
    | None => None
    end.
Proof.
  intros Hne.
  pose proof (strip_prefix_other_placeholder i j t Hne) as N.
  rewrite (placeholder_head j), append_cons in N |- *.
  cbn [JS.split_at_first]. rewrite N.
  rewrite (placeholder_head i), split_at_first_skip.
  - destruct (JS.split_at_first _ t) as [[pre post]|]; [|reflexivity].
    now rewrite append_cons.
  - rewrite has_char_append. cbn.
    now rewrite (proj1 (ofIndex_no_brace j)).
Qed.




(** ** The broker: what holds around a torn-down view *)

Section Lifecycle.
Variable bundle : gmap string string.

Lemma view_step st ev : is_Some (_view st) -> is_Some (_view (step bundle st ev)).
Proof.
  intros [v Ev]. destruct ev as [w|message| |question title]; cbn [step].
  - now exists w.
  - destruct (trigger_resolves bundle (Message message) st eq_refl) as (r & E & _).
    cbn [step] in E. rewrite E.
    destruct (_pendingRequest st) as [p|] eqn:Ep.
    + destruct (resolve_some bundle r st p Ep) as (_ & _ & _ & -> & _). now exists v.
    + rewrite resolve_none by assumption. now exists v.
  - unfold onDidDispose. destruct (_pendingRequest st) as [p|] eqn:Ep.
    + destruct (resolve_some bundle (mkResult false "View was closed") st p Ep)
        as (_ & _ & _ & -> & _). now exists v.
    + rewrite resolve_none by assumption. now exists v.
  - destruct (_pendingRequest st) as [p|] eqn:Ep.
    + unfold waitForUserResponse. rewrite Ep. now exists v.
    + destruct (ask_fields bundle question title st v Ep Ev) as (_ & _ & _ & _ & ->).
      now exists v.
Qed.

(** Once attached, a view is never detached: no event resets [_view]. *)
Lemma view_run evs st : is_Some (_view st) -> is_Some (_view (run bundle evs st)).
Proof.
  revert st. induction evs as [|ev evs IH]; intros st H; [assumption|].
  rewrite run_cons. apply IH. now apply view_step.
Qed.

Lemma view_after_resolve evs st v :
  Resolve v ∈ evs -> is_Some (_view (run bundle evs st)).
Proof.
  revert st. induction evs as [|ev evs IH]; intros st H.
  - now apply elem_of_nil in H.
  - rewrite run_cons. apply elem_of_cons in H as [<-|H].
    + apply view_run. now exists v.
    + now apply IH.
Qed.

Lemma idle_without_resolve evs st :
  (forall v, Resolve v ∉ evs) ->
  _view st = None -> _pendingRequest st = None ->
  run bundle evs st = st.
Proof.
  revert st. induction evs as [|ev evs IH]; intros st N Ev Ep; [reflexivity|].
  rewrite run_cons.
  assert (S : step bundle st ev = st).
  { destruct ev as [w|message| |question title]; cbn [step].
    - exfalso. apply (N w). now left.
    - destruct message; cbn; now apply resolve_none.
    - now apply resolve_none.
    - unfold waitForUserResponse. now rewrite Ep, Ev. }
  rewrite S. apply IH; try assumption.
  intros v H. apply (N v). now right.
Qed.

End Lifecycle.

(** The "not available" result is returned exactly while no view was
    ever resolved, and then the provider is left as it was; disposals
    play no part. *)
Theorem unavailable_iff_never_resolved (bundle : gmap string string)
  (evs : list Event) (question : string) (title : option string) :
  let st := run bundle evs init in
  (snd (waitForUserResponse bundle question title st)
     = Fulfilled (mkResult false "Agent Console view is not available.")
   <-> forall v, Resolve v ∉ evs) /\
  ((forall v, Resolve v ∉ evs) ->
   waitForUserResponse bundle question title st
     = (init, Fulfilled (mkResult false "Agent Console view is not available."))).
Proof.
  cbv zeta.
  assert (B : (forall v, Resolve v ∉ evs) ->
    waitForUserResponse bundle question title (run bundle evs init)
     = (init, Fulfilled (mkResult false "Agent Console view is not available."))).
  { intros N. now rewrite idle_without_resolve. }
  split; [split|]; [| intros N; now rewrite B | exact B].
  intros H v Hin.
  destruct (view_after_resolve bundle evs init v Hin) as [w Ew].
  unfold waitForUserResponse in H. rewrite Ew in H.
  destruct (_pendingRequest (run bundle evs init)); cbn in H; discriminate.
Qed.

(** After any resolution the slot is free again: the attached view's
    badge is 0, the next ask is accepted, creates a fresh promise and
    sets the badge to 1. *)
Theorem slot_reusable_after_resolution (bundle : gmap string string)
  (st : Provider) (p : nat) (ev : Event) (question : string) (title : option string) :
  reachable bundle st ->
  _pendingRequest st = Some p ->
  is_trigger ev = true ->
  let st' := step bundle st ev in
  _pendingRequest st' = None /\
  BadgeState st' = 0 /\
  snd (waitForUserResponse bundle question title st') = Pending (promises st) /\
  _pendingRequest (fst (waitForUserResponse bundle question title st'))
    = Some (promises st) /\
  p < promises st /\
  BadgeState (fst (waitForUserResponse bundle question title st')) = 1.
Proof.
  intros R E T st'. pose proof (reachable_Inv bundle st R) as I.
  destruct (inv_view st I p E) as [v Ev].
  destruct (inv_heap st I v Ev) as [view Hv].
  destruct (inv_fresh st I p E) as [Hlt _].
  destruct (trigger_resolves bundle ev st T) as (r & Es & _).
  destruct (resolve_some bundle r st p E) as (Hp & _ & Hn & Hw & _).
  subst st'. rewrite Es.
  assert (Hh : heap (_resolvePendingRequest bundle r st) !! v
               = Some (set_badge None view)).
  { unfold _resolvePendingRequest, _setBadge, on_view. rewrite E.
    cbn [_view heap set_heap]. rewrite Ev. cbn [heap set_heap].
    now rewrite lookup_alter_eq, Hv. }
  rewrite <- Hw in Ev.
  destruct (ask_fields bundle question title _ v Hp Ev) as (A1 & A2 & _ & _ & A3).
  rewrite Hn in A1, A2.
  repeat split; try assumption.
  - unfold BadgeState. now rewrite Ev, Hh.
  - unfold BadgeState. rewrite A3.
    unfold waitForUserResponse. rewrite Hp, Ev.
    unfold _showNotification, _setBadge, showQuestion, on_view.
    repeat (cbn [fst _view heap set_heap]; rewrite ?Ev).
    rewrite !lookup_alter_eq, Hh. reflexivity.
Qed.

Lemma slot_reusable_after_resolution_witness :
  let st := step ∅ (run ∅ [Resolve 1; Ask "Q" None] init) (Message Cancel) in
  BadgeState st = 0 /\
  snd (waitForUserResponse ∅ "Q2" None st) = Pending 1 /\
  BadgeState (fst (waitForUserResponse ∅ "Q2" None st)) = 1.
Proof.
  intros st.
  destruct (slot_reusable_after_resolution ∅
              (run ∅ [Resolve 1; Ask "Q" None] init) 0 (Message Cancel) "Q2" None)
    as (_ & H1 & H2 & _ & _ & H3).
  - exists [Resolve 1; Ask "Q" None]. reflexivity.
  - reflexivity.
  - reflexivity.
  - split; [exact H1 | split; [exact H2 | exact H3]].
Defined.

Section Badge.
Variable bundle : gmap string string.

Lemma BadgeInv_init : BadgeInv init.
Proof. intros w view H. cbn in H. now rewrite lookup_empty in H. Qed.

Lemma BadgeInv_resolve result st :
  BadgeInv st -> BadgeInv (_resolvePendingRequest bundle result st).
Proof.
  intros B. destruct (_pendingRequest st) as [p|] eqn:E.
  2: { now rewrite resolve_none. }
  unfold BadgeInv in *. rewrite E in B.
  destruct B as (v & view & Ev & Hv & _ & Ho).
  destruct (resolve_some bundle result st p E) as (-> & _).
  unfold _resolvePendingRequest, _setBadge, on_view. rewrite E.
  cbn [_view heap set_heap]. rewrite Ev. cbn [heap set_heap].
  intros w view' H. destruct (decide (v = w)) as [<-|Hne].
  - rewrite lookup_alter_eq, Hv in H. now injection H as <-.
  - rewrite lookup_alter_ne in H by assumption. now apply (Ho w view').
Qed.

Lemma BadgeInv_step st ev :
  Inv st -> BadgeInv st ->
  match ev with Resolve _ => _pendingRequest st = None | _ => True end ->
  BadgeInv (step bundle st ev).
Proof.
  intros I B A. destruct ev as [v|message| |question title]; cbn [step].
  - unfold BadgeInv in *. cbn [resolveWebviewView _pendingRequest heap].
    rewrite A in *. intros w view H.
    destruct (decide (v = w)) as [<-|Hne].
    + rewrite lookup_insert_eq in H. injection H as <-.
      destruct (heap st !! v) as [old|] eqn:Hv; cbn; [now apply (B v)|reflexivity].
    + rewrite lookup_insert_ne in H by assumption. now apply (B w).
  - destruct message; now apply BadgeInv_resolve.
  - now apply BadgeInv_resolve.
  - destruct (_pendingRequest st) as [p|] eqn:Ep.
    { unfold waitForUserResponse. now rewrite Ep. }
    destruct (_view st) as [v|] eqn:Ev.
    2: { unfold waitForUserResponse. now rewrite Ep, Ev. }
    destruct (inv_heap st I v Ev) as [view Hv].
    destruct (ask_fields bundle question title st v Ep Ev) as (_ & Hp & _ & _ & Hw).
    unfold BadgeInv in *. rewrite Hp. rewrite Ep in B.
    assert (H : heap (fst (waitForUserResponse bundle question title st)) =
      alter (show true)
        (v) (alter (set_badge (Some {| value := 1;
                                       tooltip := Localization.inputRequired bundle |})) v
               (alter (postMessage
                         (ShowQuestion question
                            (Tools.or_default title
                               (Localization.confirmationRequired bundle)))) v (heap st)))).
    { unfold waitForUserResponse. rewrite Ep, Ev.
      unfold _showNotification, _setBadge, showQuestion, on_view.
      repeat (cbn [fst _view heap set_heap]; rewrite ?Ev). reflexivity. }
    rewrite H. eexists v, _. split; [assumption|]. split; [|split].
    + rewrite !lookup_alter_eq, Hv. reflexivity.
    + reflexivity.
    + intros w view' Hne Hl. rewrite !lookup_alter_ne in Hl by congruence.
      now apply (B w).
Qed.

Lemma BadgeInv_run evs st :
  Inv st -> BadgeInv st -> attached_when_idle bundle evs st ->
  BadgeInv (run bundle evs st).
Proof.
  revert st. induction evs as [|ev evs IH]; intros st I B A; [assumption|].
  destruct A as [A1 A2]. rewrite run_cons. apply IH.
  - now apply Inv_step.
  - now apply BadgeInv_step.
  - assumption.
Qed.

Lemma BadgeInv_state st :
  BadgeInv st ->
  BadgeState st = match _pendingRequest st with Some _ => 1 | None => 0 end.
Proof.
  unfold BadgeInv, BadgeState. destruct (_pendingRequest st) as [p|].
  - intros (v & view & -> & -> & H & _). exact H.
  - intros B. destruct (_view st) as [v|]; [|reflexivity].
    destruct (heap st !! v) as [view|] eqn:Hv; [|reflexivity]. now apply (B v).
Qed.

End Badge.

(** As long as the host attaches a view only while no request is
    pending, the badge of the attached view is 1 while a request is
    pending and 0 otherwise. *)
Theorem badge_follows_slot (bundle : gmap string string) (evs : list Event) :
  attached_when_idle bundle evs init ->
  BadgeState (run bundle evs init) =
    match _pendingRequest (run bundle evs init) with Some _ => 1 | None => 0 end.
Proof.
  intros A. apply BadgeInv_state.
  apply BadgeInv_run; [apply Inv_init | apply BadgeInv_init | assumption].
Qed.

Lemma badge_follows_slot_witness :
  BadgeState
    (run ∅ [Resolve 1; Ask "Q" None; Message Cancel; Dispose; Resolve 2; Ask "Q2" None]
       init) = 1.
Proof.
  apply (badge_follows_slot ∅
           [Resolve 1; Ask "Q" None; Message Cancel; Dispose; Resolve 2; Ask "Q2" None]).
  cbn. repeat split.
Defined.

(** What a submission of the form resolves the pending promise with:
    [responded: true] and the textarea's content trimmed. *)
Theorem form_submission_result (bundle : gmap string string) (st : Provider)
  (p : nat) (doc : Document) (text : string) :
  reachable bundle st ->
  _pendingRequest st = Some p ->
  responseInput doc = Some text ->
  outcomes p (step bundle st (Message (fst (handleSubmit doc))))
    = [mkResult true (JS.trim text)].
Proof.
  intros R E D. pose proof (reachable_Inv bundle st R) as I.
  assert (M : fst (handleSubmit doc) = Submit (JS.trim text)).
  { unfold handleSubmit, submitted_response. cbn [fst]. rewrite D.
    now destruct (JS.trim text). }
  rewrite M.
  destruct (pending_resolves bundle st p (Message (Submit (JS.trim text))) I E eq_refl)
    as (result & _ & Ho & _ & _ & _ & Hs & _).
  now rewrite Ho, (Hs _ eq_refl).
Qed.

Lemma form_submission_result_witness :
  outcomes 0
    (step ∅ (run ∅ [Resolve 1; Ask "Q" None] init)
       (Message (fst (handleSubmit (form_with "  yes, go on ")))))
    = [mkResult true "yes, go on"].
Proof.
  apply (form_submission_result ∅ (run ∅ [Resolve 1; Ask "Q" None] init) 0
           (form_with "  yes, go on ") "  yes, go on ").
  - exists [Resolve 1; Ask "Q" None]. reflexivity.
  - reflexivity.
  - reflexivity.
Defined.

(** ** tools.ts: what the fallback prompt returns, whoever answers *)

(** Whatever the human does, the fallback prompt first focuses the
    editor group and shows one alert, opens at most one text entry, and
    returns a result whose [responded] says exactly whether the response
    has something besides white space; a response that counts is the
    text typed into the entry, untrimmed. *)
Theorem fallback_result_shape (bundle : gmap string string)
  (question title : string) (human : Call -> option string) :
  let focus := CommandCall "workbench.action.focusActiveEditorGroup" in
  let alert :=
    WarningCall (Localization.confirmationRequired bundle +:+ ": " +:+ question)
      false [Localization.respond bundle] in
  let entry := InputBoxCall title question (Localization.inputPlaceholder bundle) true in
  let calls := fst (Vscode.interact human (Tools.askViaVSCode bundle question title)) in
  let result := snd (Vscode.interact human (Tools.askViaVSCode bundle question title)) in
  (calls = [focus; alert] \/ calls = [focus; alert; entry]) /\
  responded result = (0 <? String.length (JS.trim (response result)))%nat /\
  (responded result = true ->
     calls = [focus; alert; entry] /\ human entry = Some (response result)).
Proof.
  cbv zeta. unfold Tools.askViaVSCode. cbn [Vscode.interact].
  destruct (decide _) as [_|_]; cbn [Vscode.interact fst snd].
  - cbn. split; [now left|]. split; [reflexivity|]. discriminate.
  - destruct (human (InputBoxCall _ _ _ _)) as [t|] eqn:E; cbn.
    + split; [now right|]. split; [reflexivity|]. now intros _.
    + split; [now right|]. split; [reflexivity|]. discriminate.
Qed.

(** ** localization.ts: messages without an opening brace *)

Lemma split_at_first_no_brace pat s :
  JS.has_char "{" s = false ->
  JS.split_at_first (String "{" pat) s = None.
Proof.
  intros H. rewrite <- (append_empty_r s), split_at_first_skip by assumption.
  reflexivity.
Qed.

Lemma forEach_no_brace args :
  forall k message,
    JS.has_char "{" message = false ->
    JS.forEach
      (fun message arg index => JS.replace (placeholder index) (String_ arg) message)
      args k message = message.
Proof.
  induction args as [|arg args IH]; intros k message H; [reflexivity|].
  cbn [JS.forEach]. unfold JS.replace at 2.
  rewrite placeholder_head, split_at_first_no_brace by assumption.
  now apply IH.
Qed.

(** ** tools.ts: the payload handed to the agent *)

Lemma ReadJSONChar_quoted c rest :
  Json.ReadJSONChar (Json.QuoteJSONChar c +:+ rest) = Some (c, rest).
Proof. destruct c as [[] [] [] [] [] [] [] []]; reflexivity. Qed.

Lemma ReadJSONChar_closing rest :
  Json.ReadJSONChar (String Json.dquote rest) = None.
Proof. reflexivity. Qed.

(** A quoted body followed by the closing quote can be read in one way
    only. *)
Lemma QuoteJSONBody_inj s1 :
  forall s2 r1 r2,
    Json.QuoteJSONBody s1 +:+ String Json.dquote r1 =
    Json.QuoteJSONBody s2 +:+ String Json.dquote r2 ->
    s1 = s2 /\ r1 = r2.
Proof.
  induction s1 as [|c1 s1 IH]; intros [|c2 s2] r1 r2 H.
  - cbn [Json.QuoteJSONBody] in H. rewrite !append_empty_l in H.
    injection H as ->. auto.
  - cbn [Json.QuoteJSONBody] in H. rewrite append_empty_l, append_assoc in H.
    apply (f_equal Json.ReadJSONChar) in H.
    rewrite ReadJSONChar_closing, ReadJSONChar_quoted in H. discriminate.
  - cbn [Json.QuoteJSONBody] in H. rewrite append_empty_l, append_assoc in H.
    apply (f_equal Json.ReadJSONChar) in H.
    rewrite ReadJSONChar_closing, ReadJSONChar_quoted in H. discriminate.
  - cbn [Json.QuoteJSONBody] in H. rewrite !append_assoc in H.
    apply (f_equal Json.ReadJSONChar) in H.
    rewrite !ReadJSONChar_quoted in H. injection H as -> H.
    destruct (IH s2 r1 r2 H) as [-> ->]. auto.
Qed.

Lemma stringify_unfold result :
  Json.stringify result =
  ("{" +:+ Json.QuoteJSONString "responded" +:+ ":" +:+
   (if responded result then "true" else "false") +:+
   "," +:+ Json.QuoteJSONString "response" +:+ ":" +:+ String Json.dquote "") +:+
  Json.QuoteJSONBody (response result) +:+ String Json.dquote "}".
Proof.
  unfold Json.stringify, Json.QuoteJSONString.
  rewrite !append_assoc, !append_cons, !append_assoc. reflexivity.
Qed.

Lemma stringify_unavailable_inv (r : UserResponseResult) :
  Json.stringify r = Json.stringify (mkResult false "Agent Console view is not available.") ->
  r = mkResult false "Agent Console view is not available.".
Proof.
  rewrite !stringify_unfold. destruct r as [b s]. cbn [responded response].
  intros H. destruct b; [vm_compute in H; discriminate H|].
  apply String.app_inj in H. now destruct (QuoteJSONBody_inj _ _ _ _ H) as [-> _].
Qed.

(** The text part of the tool result determines the result: two results
    with the same JSON text are the same, whatever quotes, backslashes
    or control characters the response holds. *)
Theorem stringify_injective (r1 r2 : UserResponseResult) :
  Json.stringify r1 = Json.stringify r2 -> r1 = r2.
Proof.
  rewrite !stringify_unfold. destruct r1 as [b1 s1], r2 as [b2 s2].
  cbn [responded response]. intros H.
  destruct b1, b2.
  - apply String.app_inj in H. now destruct (QuoteJSONBody_inj _ _ _ _ H) as [-> _].
  - vm_compute in H. discriminate H.
  - vm_compute in H. discriminate H.
  - apply String.app_inj in H. now destruct (QuoteJSONBody_inj _ _ _ _ H) as [-> _].
Qed.

Lemma stringify_injective_witness :
  mkResult true (JS.trim " 42 ") = mkResult true "42" /\
  Json.stringify (mkResult true (String Json.dquote "")) <>
  Json.stringify (mkResult true (String Json.backslash (String Json.dquote ""))).
Proof.
  split.
  - apply (stringify_injective (mkResult true (JS.trim " 42 ")) (mkResult true "42")).
    reflexivity.
  - intros H. apply stringify_injective in H. discriminate H.
Defined.

(** ** The broker: every promise is accounted for *)

Section PromiseAccounting.
Variable bundle : gmap string string.

Lemma Accounted_init : Accounting.Accounted init.
Proof. repeat split. cbn. lia. Qed.

Lemma Accounted_resolve result st :
  Accounting.Accounted st -> Accounting.Accounted (_resolvePendingRequest bundle result st).
Proof.
  intros (A1 & A2 & A3). destruct (_pendingRequest st) as [p|] eqn:E.
  2: { rewrite resolve_none by assumption. unfold Accounting.Accounted. now rewrite E. }
  destruct (resolve_some bundle result st p E) as (Hp & Hr & Hn & _ & Ho).
  unfold Accounting.Accounted. rewrite Hp, Hr, Hn, Ho. cbn [length map].
  repeat split; [lia | assumption |].
  intros q Hq. left. destruct (A3 q Hq) as [H|H].
  - now right.
  - injection H as ->. now left.
Qed.

Lemma ask_notifications question title st v :
  _pendingRequest st = None -> _view st = Some v ->
  length (notifications (fst (waitForUserResponse bundle question title st)))
    = S (length (notifications st)).
Proof.
  intros Ep Ev. unfold waitForUserResponse. rewrite Ep, Ev.
  unfold _showNotification, _setBadge, showQuestion. cbn [fst notifications].
  autorewrite with provider. cbn [notifications].
  rewrite length_app. cbn. lia.
Qed.

Lemma Accounted_step st ev : Accounting.Accounted st -> Accounting.Accounted (step bundle st ev).
Proof.
  intros A. destruct ev as [v|message| |question title]; cbn [step].
  - exact A.
  - destruct message; now apply Accounted_resolve.
  - now apply Accounted_resolve.
  - destruct (_pendingRequest st) as [p|] eqn:Ep.
    { unfold waitForUserResponse. now rewrite Ep. }
    destruct (_view st) as [v|] eqn:Ev.
    2: { unfold waitForUserResponse. now rewrite Ep, Ev. }
    destruct (ask_fields bundle question title st v Ep Ev) as (_ & Hp & Hn & Hr & _).
    pose proof (ask_notifications question title st v Ep Ev) as Ho.
    destruct A as (A1 & A2 & A3). rewrite Ep in A1, A3.
    unfold Accounting.Accounted. rewrite Hp, Hn, Hr, Ho.
    repeat split; [lia | lia |].
    intros q Hq. destruct (decide (q = promises st)) as [->|Hne]; [now right|].
    left. destruct (A3 q ltac:(lia)) as [H|H]; [assumption | discriminate].
Qed.

Lemma Accounted_run evs st : Accounting.Accounted st -> Accounting.Accounted (run bundle evs st).
Proof.
  revert st. induction evs as [|ev evs IH]; intros st A; [assumption|].
  rewrite run_cons. apply IH. now apply Accounted_step.
Qed.

Lemma filter_fst_once (q : nat) (rs : list (nat * UserResponseResult)) :
  NoDup (map fst rs) -> q ∈ map fst rs ->
  exists r, filter (fun e => fst e = q) rs = [(q, r)].
Proof.
  induction rs as [|[p r] rs IH]; cbn [map fst]; intros N H.
  - now apply elem_of_nil in H.
  - apply NoDup_cons in N as [Hp N]. destruct (decide (p = q)) as [->|Hne].
    + exists r. rewrite filter_cons_True by reflexivity.
      now rewrite filter_fst_fresh.
    + rewrite filter_cons_False by (cbn; congruence).
      apply elem_of_cons in H as [H|H]; [congruence|]. now apply IH.
Qed.

End PromiseAccounting.

(** In every reachable state the promises the provider created are
    exactly the resolved ones plus the pending one, and one notification
    was shown per promise.  A promise that was created is either the
    pending one, with no result yet, or has exactly one result; a number
    that names no promise has none.  So no accepted ask is ever dropped
    without a result while the slot is free. *)
Theorem every_promise_accounted (bundle : gmap string string)
  (st : Provider) (q : nat) :
  reachable bundle st ->
  promises st = length (resolutions st) +
                match _pendingRequest st with Some _ => 1 | None => 0 end /\
  length (notifications st) = promises st /\
  (q < promises st ->
     (_pendingRequest st = Some q /\ outcomes q st = []) \/
     (_pendingRequest st <> Some q /\ exists r, outcomes q st = [r])) /\
  (promises st <= q -> _pendingRequest st <> Some q /\ outcomes q st = []).
Proof.
  intros R. pose proof (reachable_Inv bundle st R) as I.
  destruct R as [evs ->].
  destruct (Accounted_run bundle evs init Accounted_init) as (A1 & A2 & A3).
  set (st := run bundle evs init) in *.
  repeat split; try assumption.
  - intros Hq. destruct (A3 q Hq) as [H|H].
    + right. split.
      * intros E. now apply (inv_fresh st I q E).
      * destruct (filter_fst_once q (resolutions st) (inv_once st I) H) as [r Hr].
        exists r. unfold outcomes. now rewrite Hr.
    + left. split; [assumption|]. unfold outcomes.
      rewrite filter_fst_fresh; [reflexivity|]. now apply (inv_fresh st I q H).
  - intros E. apply (inv_fresh st I) in E. lia.
  - unfold outcomes. rewrite filter_fst_fresh; [reflexivity|].
    intros Hin. apply (inv_bound st I) in Hin. lia.
Qed.

Lemma every_promise_accounted_witness :
  let st := run ∅ [Resolve 1; Ask "a" None; Ask "b" None; Message (Submit "x");
                   Ask "c" None; Dispose; Message Cancel; Ask "d" None] init in
  promises st = 3 /\ length (notifications st) = 3 /\
  ((_pendingRequest st = Some 1 /\ outcomes 1 st = []) \/
   (_pendingRequest st <> Some 1 /\ exists r, outcomes 1 st = [r])).
Proof.
  intros st.
  destruct (every_promise_accounted ∅ st 1) as (H1 & H2 & H3 & _).
  - eexists. reflexivity.
  - split; [reflexivity|]. split; [exact H2|]. apply H3. cbn. lia.
Defined.

(** ** localization.ts: one substitution per argument *)

Lemma occurrences_fill_first k text tpl i :
  Template.occurrences i (fill_first k text tpl) =
  if decide (i = k) then pred (Template.occurrences i tpl)
  else Template.occurrences i tpl.
Proof.
  unfold Template.occurrences.
  induction tpl as [|[s|j] tpl IH]; cbn [fill_first holes].
  - now destruct (decide (i = k)).
  - exact IH.
  - destruct (decide (j = k)) as [->|Hjk]; cbn [holes count_occ].
    + destruct (decide (i = k)) as [->|Hik].
      * now destruct (Nat.eq_dec k k).
      * destruct (Nat.eq_dec k i); [congruence | reflexivity].
    + rewrite IH. destruct (decide (i = k)) as [->|Hik].
      * destruct (Nat.eq_dec j k); [congruence | reflexivity].
      * reflexivity.
Qed.

Lemma occurrences_fill_each args :
  forall k tpl i,
    Template.occurrences i (Template.fill_each k args tpl) =
    if decide (k <= i < k + length args) then pred (Template.occurrences i tpl)
    else Template.occurrences i tpl.
Proof.
  induction args as [|arg args IH]; intros k tpl i; cbn [Template.fill_each length].
  - destruct (decide _) as [H|H]; [lia | reflexivity].
  - rewrite IH, occurrences_fill_first.
    destruct (decide (S k <= i < S k + length args)) as [H1|H1],
             (decide (i = k)) as [H2|H2],
             (decide (k <= i < k + S (length args))) as [H3|H3];
      try lia; reflexivity.
Qed.

(** ** webviewProvider.ts: the nonce *)

Lemma charAt_possible k :
  k < 62 ->
  exists c, Nonce.charAt Nonce.possible k = String c "" /\ Nonce.is_alphanumeric c = true.
Proof.
  intros H.
  do 62 (destruct k as [|k]; [eexists; split; reflexivity|]). lia.
Qed.

Lemma charAt_possible_out k :
  62 <= k -> Nonce.charAt Nonce.possible k = "".
Proof.
  intros H. do 62 (destruct k as [|k]; [lia|]). reflexivity.
Qed.

Lemma all_alphanumeric_append a b :
  Nonce.all_alphanumeric (a +:+ b) =
  Nonce.all_alphanumeric a && Nonce.all_alphanumeric b.
Proof.
  induction a as [|c a IH]; [reflexivity|].
  rewrite append_cons. cbn [Nonce.all_alphanumeric]. now rewrite IH, andb_assoc.
Qed.

Lemma length_append (a b : string) :
  String.length (a +:+ b) = String.length a + String.length b.
Proof.
  induction a as [|c a IH]; [reflexivity|].
  rewrite append_cons. cbn [String.length]. now rewrite IH.
Qed.

Lemma nonce_loop_spec count :
  forall i draw text,
    Nonce.all_alphanumeric text = true ->
    Nonce.all_alphanumeric (Nonce.nonce_loop count i draw text) = true /\
    String.length (Nonce.nonce_loop count i draw text) <= String.length text + count /\
    ((forall j, draw j < 62) ->
     String.length (Nonce.nonce_loop count i draw text) = String.length text + count).
Proof.
  induction count as [|count IH]; intros i draw text A; cbn [Nonce.nonce_loop].
  - repeat split; [assumption | lia | lia].
  - assert (C : Nonce.all_alphanumeric (Nonce.charAt Nonce.possible (draw i)) = true /\
                String.length (Nonce.charAt Nonce.possible (draw i)) <= 1 /\
                (draw i < 62 -> String.length (Nonce.charAt Nonce.possible (draw i)) = 1)).
    { destruct (le_lt_dec 62 (draw i)) as [H|H].
      - rewrite charAt_possible_out by assumption. cbn. repeat split; lia.
      - destruct (charAt_possible (draw i) H) as (c & -> & Hc). cbn.
        rewrite Hc. repeat split; lia. }
    destruct C as (C1 & C2 & C3).
    destruct (IH (S i) draw (text +:+ Nonce.charAt Nonce.possible (draw i)))
      as (I1 & I2 & I3).
    { now rewrite all_alphanumeric_append, A, C1. }
    rewrite length_append in I2, I3.
    repeat split; [assumption | lia |].
    intros D. rewrite (I3 D), (C3 (D i)). lia.
Qed.

(** Whatever the random draws are, the nonce holds only letters and
    digits and at most 32 characters; when every draw is an index into
    the 62 characters, as the floor of a number below 62 is, it holds
    exactly 32. *)
Theorem nonce_is_alphanumeric (draw : nat -> nat) :
  Nonce.all_alphanumeric (Nonce._getNonce draw) = true /\
  String.length (Nonce._getNonce draw) <= 32 /\
  ((forall j, draw j < 62) -> String.length (Nonce._getNonce draw) = 32).
Proof.
  unfold Nonce._getNonce.
  destruct (nonce_loop_spec 32 0 draw "" eq_refl) as (H1 & H2 & H3).
  repeat split; [assumption | exact H2 | exact H3].
Qed.

Lemma nonce_is_alphanumeric_witness :
  Nonce._getNonce (fun j => (7 * j + 3) mod 62) = "DKRYfmt07ELSZgnu18FMTahov29GNUbi" /\
  String.length (Nonce._getNonce (fun j => (7 * j + 3) mod 62)) = 32.
Proof.
  split; [reflexivity|].
  apply (proj2 (proj2 (nonce_is_alphanumeric (fun j => (7 * j + 3) mod 62)))).
  intros j. apply Nat.mod_upper_bound. discriminate.
Defined.

(** ** The tool's [invoke] and the panel, end to end *)

Local Open Scope list_scope.

Lemma localize_not_empty (bundle : gmap string string) key :
  key <> "" -> localize bundle key [] <> "".
Proof.
  intros N. unfold localize, lookup_message. cbn [JS.forEach].
  destruct (bundle !! key) as [[|c m]|]; cbn [JS.or_else]; congruence.
Qed.

Lemma or_default_not_empty o d : d <> "" -> Tools.or_default o d <> "".
Proof.
  intros N. unfold Tools.or_default.
  destruct o as [[|c s]|]; cbn [JS.or_else]; congruence.
Qed.

Lemma or_default_given s d : s <> "" -> Tools.or_default (Some s) d = s.
Proof. intros N. destruct s; [contradiction | reflexivity]. Qed.

Lemma append_not_empty_l (a b : string) : a <> "" -> a +:+ b <> "".
Proof. destruct a; [contradiction | discriminate]. Qed.

Lemma invoke_title_not_empty (bundle : gmap string string) params :
  Tools.invoke_title bundle params <> "".
Proof.
  unfold Tools.invoke_title. apply append_not_empty_l.
  apply or_default_not_empty. discriminate.
Qed.

Lemma ask_heap (bundle : gmap string string) question title st v :
  _pendingRequest st = None -> _view st = Some v ->
  heap (fst (waitForUserResponse bundle question title st)) =
    alter (show true) v
      (alter (set_badge (Some {| value := 1;
                                 tooltip := Localization.inputRequired bundle |})) v
         (alter (postMessage
                   (ShowQuestion question
                      (Tools.or_default title (Localization.confirmationRequired bundle))))
            v (heap st))).
Proof.
  intros Ep Ev. unfold waitForUserResponse. rewrite Ep, Ev.
  unfold _showNotification, _setBadge, WebviewProvider.showQuestion, on_view.
  repeat (cbn [fst _view heap set_heap]; rewrite ?Ev). reflexivity.
Qed.

Lemma ask_posted (bundle : gmap string string) question title st v view :
  _pendingRequest st = None -> _view st = Some v -> heap st !! v = Some view ->
  posted <$> heap (fst (waitForUserResponse bundle question title st)) !! v =
    Some (posted view ++
          [ShowQuestion question
             (Tools.or_default title (Localization.confirmationRequired bundle))]).
Proof.
  intros Ep Ev Hv. rewrite (ask_heap bundle question title st v Ep Ev).
  rewrite !lookup_alter_eq, Hv. reflexivity.
Qed.

Lemma interact_and_then {A B : Type} (human : Call -> option string)
  (prog : Host A) (f : A -> B) :
  Vscode.interact human (Invoke.and_then prog f) =
    (fst (Vscode.interact human prog), f (snd (Vscode.interact human prog))).
Proof.
  induction prog as [a|command k IH|message modal items k IH
                     |title prompt placeHolder ignoreFocusOut k IH];
    cbn [Invoke.and_then Vscode.interact].
  - reflexivity.
  - rewrite IH. now destruct (Vscode.interact human k).
  - rewrite IH. now destruct (Vscode.interact human (k _)).
  - rewrite IH. now destruct (Vscode.interact human (k _)).
Qed.

Lemma fallback_not_unavailable (bundle : gmap string string) question title human :
  snd (Vscode.interact human (Tools.askViaVSCode bundle question title)) <>
  mkResult false "Agent Console view is not available.".
Proof.
  unfold Tools.askViaVSCode. cbn [Vscode.interact].
  destruct (decide _) as [_|_]; cbn [Vscode.interact]; [discriminate|].
  destruct (human (InputBoxCall _ _ _ _)) as [t|]; cbn; [|discriminate].
  intros [= H ->]. vm_compute in H. discriminate.
Qed.

(** The title [invoke] builds is never empty, so the provider's own
    default title is never used for a question that comes through the
    tool: with a view attached and the slot free, the view is posted the
    question with exactly the built title, which starts with "Agent: "
    when no agent name (or an empty one) is given. *)
Theorem invoke_posts_its_title (bundle : gmap string string)
  (params : Tools.Input) (st : Provider) (v : nat) (view : WebviewView) :
  _pendingRequest st = None ->
  _view st = Some v ->
  heap st !! v = Some view ->
  Tools.invoke_title bundle params <> "" /\
  snd (Invoke.invoke_call bundle params st) = Pending (promises st) /\
  posted <$> heap (fst (Invoke.invoke_call bundle params st)) !! v =
    Some (posted view ++
          [ShowQuestion (Tools.question params) (Tools.invoke_title bundle params)]) /\
  (Tools.agentName params = None \/ Tools.agentName params = Some "" ->
   exists base, base <> "" /\
     Tools.invoke_title bundle params = "Agent: " +:+ base).
Proof.
  intros Ep Ev Hv. pose proof (invoke_title_not_empty bundle params) as N.
  unfold Invoke.invoke_call. split; [assumption|]. split; [|split].
  - now destruct (ask_fields bundle (Tools.question params)
                    (Some (Tools.invoke_title bundle params)) st v Ep Ev) as (-> & _).
  - rewrite (ask_posted bundle _ _ st v view Ep Ev Hv).
    now rewrite or_default_given.
  - intros H.
    exists (Tools.or_default (Tools.title params) (Localization.confirmationRequired bundle)).
    split.
    + apply or_default_not_empty. apply localize_not_empty. discriminate.
    + unfold Tools.invoke_title. now destruct H as [-> | ->].
Qed.

Lemma invoke_posts_its_title_witness :
  let params := {| Tools.question := "Deploy?"; Tools.title := Some "Release";
                   Tools.agentName := None |} in
  let st := run ∅ [Resolve 1] init in
  posted <$> heap (fst (Invoke.invoke_call ∅ params st)) !! 1 =
    Some [ShowQuestion "Deploy?" "Agent: Release"].
Proof.
  intros params st.
  destruct (invoke_posts_its_title ∅ params st 1 new_view) as (_ & _ & H & _);
    [reflexivity | reflexivity | reflexivity |].
  exact H.
Defined.

(** What [invoke] hands to the agent.  For the "not available" result
    it runs the fallback prompt and returns the JSON text of what the
    fallback returned; for every other result it opens no dialog and
    returns the JSON text of that result.  The JSON text of the "not
    available" result itself is never returned.  With no view ever
    resolved the provider call gives the "not available" result, so the
    tool then always goes through the fallback. *)
Theorem invoke_payload (bundle : gmap string string) (params : Tools.Input)
  (result : UserResponseResult) (human : Call -> option string)
  (evs : list Event) :
  let unavailable := mkResult false "Agent Console view is not available." in
  let fallback :=
    Vscode.interact human
      (Tools.askViaVSCode bundle (Tools.question params)
         (Tools.invoke_title bundle params)) in
  Vscode.interact human (Invoke.invoke_return bundle params unavailable)
    = (fst fallback, Json.stringify (snd fallback)) /\
  (result <> unavailable ->
   Vscode.interact human (Invoke.invoke_return bundle params result)
     = ([], Json.stringify result)) /\
  snd (Vscode.interact human (Invoke.invoke_return bundle params result))
    <> Json.stringify unavailable /\
  ((forall v, Resolve v ∉ evs) ->
   Invoke.invoke_call bundle params (run bundle evs init) = (init, Fulfilled unavailable)).
Proof.
  cbv zeta. unfold Invoke.invoke_return. rewrite !interact_and_then.
  split; [reflexivity|].
  assert (O : result <> mkResult false "Agent Console view is not available." ->
              Tools.askViaWebview bundle result (Tools.question params)
                (Tools.invoke_title bundle params) = Return result).
  { intros N. unfold Tools.askViaWebview.
    destruct (Tools.viewNotAvailable result) eqn:V; [|reflexivity].
    apply viewNotAvailable_spec in V. contradiction. }
  split; [|split].
  - intros N. now rewrite (O N).
  - cbn [snd]. intros H. apply stringify_unavailable_inv in H.
    destruct (decide (result = mkResult false "Agent Console view is not available."))
      as [->|N].
    + now apply fallback_not_unavailable in H.
    + rewrite (O N) in H. cbn in H. contradiction.
  - intros N. unfold Invoke.invoke_call. now rewrite idle_without_resolve.
Qed.

(** ** webview/main.ts: the form *)

Lemma complete_onMessage md_render doc message :
  Typing.complete doc -> Typing.complete (Panel.onMessage md_render doc message).
Proof.
  intros ([a Ha] & [b Hb] & [c Hc] & [d Hd] & [e He]).
  destruct message; cbn; unfold Typing.complete, Panel.showQuestion, clearForm; cbn;
    rewrite ?Ha, ?Hb, ?Hc, ?Hd, ?He; repeat split; eauto.
Qed.

Lemma complete_deliver md_render messages :
  forall doc, Typing.complete doc ->
    Typing.complete (Panel.deliver md_render messages doc).
Proof.
  induction messages as [|m ms IH]; intros doc C; [assumption|].
  cbn [Panel.deliver fold_left]. apply IH. now apply complete_onMessage.
Qed.

(** [clear()] of the provider posts a clear message to the attached view
    (nothing without a view) and touches nothing else: a pending request
    stays pending with no result and its badge stays, while the script
    hides the form on that message. *)
Theorem clear_keeps_request_pending (md_render : string -> string)
  (st : Provider) (p : nat) (doc : Document) :
  _pendingRequest st = Some p ->
  _pendingRequest (clear st) = Some p /\
  resolutions (clear st) = resolutions st /\
  promises (clear st) = promises st /\
  BadgeState (clear st) = BadgeState st /\
  (forall v view, _view st = Some v -> heap st !! v = Some view ->
     posted <$> heap (clear st) !! v = Some (posted view ++ [Clear])) /\
  (_view st = None -> clear st = st) /\
  Panel.form_visible (Panel.onMessage md_render doc Clear) = false.
Proof.
  intros E. unfold clear.
  split; [now rewrite on_view_pending|].
  split; [now rewrite on_view_resolutions|].
  split; [now rewrite on_view_promises|].
  repeat split.
  - unfold BadgeState. rewrite on_view_view.
    destruct (_view st) as [v|] eqn:Ev; [|reflexivity].
    unfold on_view. rewrite Ev. cbn [heap set_heap]. rewrite lookup_alter_eq.
    now destruct (heap st !! v).
  - intros v view Ev Hv. unfold on_view. rewrite Ev. cbn [heap set_heap].
    now rewrite lookup_alter_eq, Hv.
  - intros Ev. unfold on_view. now rewrite Ev.
  - now destruct doc as [[a|] [b|] c d [e|]].
Qed.

Lemma clear_keeps_request_pending_witness :
  let st := run ∅ [Resolve 1; Ask "Q" None] init in
  _pendingRequest (clear st) = Some 0 /\
  outcomes 0 (clear st) = [] /\
  BadgeState (clear st) = 1.
Proof.
  intros st.
  destruct (clear_keeps_request_pending (fun s => s) st 0 (form_with "draft"))
    as (H1 & H2 & _ & H3 & _); [reflexivity|].
  split; [exact H1|]. split.
  - unfold outcomes. rewrite H2. reflexivity.
  - rewrite H3. reflexivity.
Defined.

(** ** The broker: the results it can deliver *)

Section Delivered.
Variable bundle : gmap string string.

Lemma delivered_step st ev :
  Forall (fun e => Accounting.delivered_ok (snd e)) (resolutions st) ->
  Forall (fun e => Accounting.delivered_ok (snd e)) (resolutions (step bundle st ev)).
Proof.
  intros F.
  assert (T : is_trigger ev = true ->
    Forall (fun e => Accounting.delivered_ok (snd e)) (resolutions (step bundle st ev))).
  { intros T. destruct (trigger_resolves bundle ev st T) as (r & -> & Hd & Hs & Hc).
    destruct (_pendingRequest st) as [p|] eqn:E.
    2: { now rewrite resolve_none. }
    destruct (resolve_some bundle r st p E) as (_ & -> & _).
    constructor; [|assumption]. cbn [snd].
    destruct ev as [v|[x|]| |q t]; try discriminate.
    - left. now rewrite (Hs x eq_refl).
    - right. left. now apply Hc.
    - right. right. now apply Hd. }
  destruct ev as [v|message| |question title]; try (now apply T).
  - exact F.
  - cbn [step]. destruct (_pendingRequest st) as [p|] eqn:Ep.
    { unfold waitForUserResponse. now rewrite Ep. }
    destruct (_view st) as [v|] eqn:Ev.
    2: { unfold waitForUserResponse. now rewrite Ep, Ev. }
    now destruct (ask_fields bundle question title st v Ep Ev) as (_ & _ & _ & -> & _).
Qed.

Lemma delivered_run evs :
  forall st, Forall (fun e => Accounting.delivered_ok (snd e)) (resolutions st) ->
    Forall (fun e => Accounting.delivered_ok (snd e)) (resolutions (run bundle evs st)).
Proof.
  induction evs as [|ev evs IH]; intros st F; [assumption|].
  rewrite run_cons. apply IH. now apply delivered_step.
Qed.

End Delivered.

(** A pending promise is only ever resolved with a submitted text
    ([responded: true]), with the cancel result
    [{responded: false, response: ""}] or with "View was closed"; the
    busy and "not available" results are returned at once and never
    passed to a resolve function. *)
Theorem delivered_results (bundle : gmap string string) (st : Provider)
  (p : nat) (r : UserResponseResult) :
  reachable bundle st ->
  (p, r) ∈ resolutions st ->
  responded r = true \/ r = mkResult false "" \/ r = mkResult false "View was closed".
Proof.
  intros [evs ->] H.
  pose proof (delivered_run bundle evs init (Forall_nil_2 _)) as F.
  rewrite Forall_forall in F. exact (F (p, r) H).
Qed.

Lemma delivered_results_witness :
  let st := run ∅ [Resolve 1; Ask "a" None; Dispose; Ask "b" None; Message Cancel] init in
  resolutions st = [(1, mkResult false ""); (0, mkResult false "View was closed")] /\
  (responded (mkResult false "") = true \/ mkResult false "" = mkResult false "" \/
   mkResult false "" = mkResult false "View was closed").
Proof.
  intros st. split; [reflexivity|].
  apply (delivered_results ∅ st 1 (mkResult false "")).
  - eexists. reflexivity.
  - apply elem_of_cons. now left.
Defined.

(** ** tools.ts: the sentinel's text can reach the agent *)

(** C3 as stated fails in its last clause: the text of the sentinel
    reaches the agent when the human submits that very text in the panel
    (the adapter returns the result unchanged), and when the human types
    it into the fallback's text entry. *)
Lemma sentinel_text_reaches_agent :
  let text := "Agent Console view is not available." in
  let press (call : Call) :=
    match call with
    | WarningCall _ _ _ => Some (Localization.respond ∅)
    | _ => Some text
    end in
  (outcomes 0 (run ∅ [Resolve 1; Ask "Q" None; Message (Submit text)] init)
     = [mkResult true text] /\
   Vscode.interact (fun _ => None) (Tools.askViaWebview ∅ (mkResult true text) "Q" "T")
     = ([], mkResult true text) /\
   response (snd (Vscode.interact (fun _ => None)
                    (Tools.askViaWebview ∅ (mkResult true text) "Q" "T"))) = text) /\
  (waitForUserResponse ∅ "Q" (Some "T") init = (init, Fulfilled (mkResult false text)) /\
   snd (Vscode.interact press (Tools.askViaWebview ∅ (mkResult false text) "Q" "T"))
     = mkResult true text).
Proof. cbv zeta. repeat split. Qed.

(** ** localization.ts: [localize] on every key *)


Lemma localize_on_members (bundle : gmap string string) key args :
  bundle !! key = None -> Prototype.inherited key = true ->
  Prototype.localize bundle key args =
    match args with
    | [] => Prototype.Returns Prototype.Obj
    | _ :: _ => Prototype.Throws
    end.
Proof.
  intros E H. unfold Prototype.localize, Prototype.get. now rewrite E, H.
Qed.

Lemma digit_not_brace c :
  Placeholder.is_digit c = true ->
  Ascii.eqb "}" c = false /\ Ascii.eqb "{" c = false.
Proof. destruct c as [[] [] [] [] [] [] [] []]; cbn; intros H; auto; discriminate. Qed.

Lemma ofIndex_digits index : Placeholder.all_digits (JS.ofIndex index) = true.
Proof.
  unfold JS.ofIndex. generalize (Nat.to_uint index). intros d.
  induction d; cbn [NilEmpty.string_of_uint Placeholder.all_digits];
    rewrite ?IHd; reflexivity.
Qed.

Lemma ofIndex_not_empty index : JS.ofIndex index <> "".
Proof.
  unfold JS.ofIndex. destruct (Nat.to_uint index) eqn:E; try discriminate.
  pose proof (Unsigned.of_to index) as H. rewrite E in H. cbn in H. subst index.
  discriminate E.
Qed.

(** After a brace and digits that are blocked, no run of digits closed
    by a brace matches. *)
Lemma strip_prefix_blocked_digits last s :
  forall p t,
    Placeholder.blocked_digits last s = true ->
    (last = true -> t = "") ->
    Placeholder.all_digits p = true ->
    JS.strip_prefix (p +:+ "}") (s +:+ t) = None.
Proof.
  induction s as [|c r IH]; intros p t B T D.
  - cbn [Placeholder.blocked_digits] in B. rewrite (T B), append_empty_l.
    destruct p; reflexivity.
  - rewrite append_cons. cbn [Placeholder.blocked_digits] in B.
    destruct p as [|d p].
    + rewrite append_empty_l. cbn [JS.strip_prefix].
      destruct (Placeholder.is_digit c) eqn:C.
      * now rewrite (proj1 (digit_not_brace c C)).
      * apply negb_true_iff in B. rewrite Ascii.eqb_sym in B. now rewrite B.
    + rewrite append_cons. cbn [JS.strip_prefix].
      cbn [Placeholder.all_digits] in D. apply andb_true_iff in D as [Dd Dp].
      destruct (Ascii.eqb_spec d c) as [->|]; [|reflexivity].
      rewrite Dd in B. now apply IH.
Qed.

Lemma strip_prefix_blocked last s p t :
  Placeholder.blocked_after last s = true ->
  (last = true -> t = "") ->
  Placeholder.all_digits p = true ->
  p <> "" ->
  JS.strip_prefix (p +:+ "}") (s +:+ t) = None.
Proof.
  intros B T D N. destruct p as [|d p]; [contradiction|].
  rewrite append_cons.
  destruct s as [|c r].
  - cbn [Placeholder.blocked_after] in B. rewrite (T B). reflexivity.
  - rewrite append_cons. cbn [JS.strip_prefix].
    cbn [Placeholder.all_digits] in D. apply andb_true_iff in D as [Dd Dp].
    destruct (Ascii.eqb_spec d c) as [->|]; [|reflexivity].
    cbn [Placeholder.blocked_after] in B. rewrite Dd in B.
    now apply (strip_prefix_blocked_digits last).
Qed.

(** A placeholder cannot match inside text whose braces are blocked. *)
Lemma split_at_first_blocked last i s t :
  Placeholder.braces_blocked last s = true ->
  (last = true -> t = "") ->
  JS.split_at_first (placeholder i) (s +:+ t) =
    match JS.split_at_first (placeholder i) t with
    | Some (preceding, following) => Some (s +:+ preceding, following)
    | None => None
    end.
Proof.
  intros B T. induction s as [|c r IH].
  - rewrite append_empty_l. now destruct (JS.split_at_first _ t) as [[? ?]|].
  - cbn [Placeholder.braces_blocked] in B. apply andb_true_iff in B as [Bc Br].
    rewrite append_cons.
    assert (N : JS.strip_prefix (placeholder i) (String c (r +:+ t)) = None).
    { rewrite placeholder_head. cbn [JS.strip_prefix].
      destruct (Ascii.eqb_spec "{" c) as [<-|]; [|reflexivity].
      rewrite Ascii.eqb_refl in Bc.
      apply (strip_prefix_blocked last);
        [assumption | assumption | apply ofIndex_digits | apply ofIndex_not_empty]. }
    cbn [JS.split_at_first]. rewrite N, (IH Br).
    now destruct (JS.split_at_first (placeholder i) t) as [[? ?]|].
Qed.

Lemma blocked_digits_weaken last s :
  Placeholder.blocked_digits false s = true -> Placeholder.blocked_digits last s = true.
Proof.
  induction s as [|c r IH]; cbn [Placeholder.blocked_digits]; [discriminate|].
  destruct (Placeholder.is_digit c); auto.
Qed.

Lemma braces_blocked_weaken last s :
  Placeholder.braces_blocked false s = true -> Placeholder.braces_blocked last s = true.
Proof.
  induction s as [|c r IH]; cbn [Placeholder.braces_blocked]; [reflexivity|].
  intros H. apply andb_true_iff in H as [Hc Hr]. rewrite (IH Hr), andb_true_r.
  destruct (Ascii.eqb c "{"); [|reflexivity].
  destruct r as [|d r']; [discriminate|]. cbn [Placeholder.blocked_after] in *.
  destruct (Placeholder.is_digit d); [now apply blocked_digits_weaken | reflexivity].
Qed.

(** Without one of the four patterns the replacement text is taken as
    it is. *)
Lemma GetSubstitution_no_pattern matched preceding following text :
  Placeholder.no_dollar_pattern text = true ->
  JS.GetSubstitution matched preceding following text = text.
Proof.
  induction text as [|c r IH]; [reflexivity|].
  cbn [Placeholder.no_dollar_pattern JS.GetSubstitution].
  intros H. apply andb_true_iff in H as [Hc Hr].
  destruct (Ascii.eqb c "$").
  - destruct r as [|d r']; [reflexivity|].
    apply negb_true_iff in Hc. unfold Placeholder.pattern_char in Hc.
    apply orb_false_iff in Hc as [Hc H4]. apply orb_false_iff in Hc as [Hc H3].
    apply orb_false_iff in Hc as [H1 H2].
    rewrite H1, H2, H3, H4. now rewrite IH.
  - now rewrite IH.
Qed.

Lemma replace_render_harmless i text tpl :
  Placeholder.harmless tpl = true ->
  Placeholder.no_dollar_pattern text = true ->
  JS.replace (placeholder i) text (render tpl) = render (fill_first i text tpl).
Proof.
  intros P D. unfold JS.replace.
  assert (S : match JS.split_at_first (placeholder i) (render tpl) with
              | Some (preceding, following) =>
                  preceding +:+ text +:+ following = render (fill_first i text tpl)
              | None => render tpl = render (fill_first i text tpl)
              end).
  { induction tpl as [|[s|j] tpl IH]; cbn [render render_piece fill_first].
    - reflexivity.
    - cbn [Placeholder.harmless] in P. apply andb_true_iff in P as [Ps Pt].
      rewrite (split_at_first_blocked _ i s (render tpl) Ps)
        by (intros L; destruct tpl; [reflexivity | discriminate L]).
      specialize (IH Pt).
      destruct (JS.split_at_first (placeholder i) (render tpl)) as [[pre post]|].
      + rewrite append_assoc. now rewrite IH.
      + now rewrite IH.
    - cbn [Placeholder.harmless] in P. destruct (decide (j = i)) as [->|Hne].
      + now rewrite split_at_first_here.
      + rewrite split_at_first_other_placeholder by assumption. specialize (IH P).
        destruct (JS.split_at_first (placeholder i) (render tpl)) as [[pre post]|];
          cbn [render render_piece].
        * rewrite append_assoc. now rewrite IH.
        * now rewrite IH. }
  destruct (JS.split_at_first (placeholder i) (render tpl)) as [[pre post]|];
    [|exact S].
  now rewrite GetSubstitution_no_pattern.
Qed.

Lemma fill_first_nil k text tpl :
  match fill_first k text tpl with [] => true | _ :: _ => false end =
  match tpl with [] => true | _ :: _ => false end.
Proof.
  destruct tpl as [|[s|i] tpl]; cbn [fill_first]; try reflexivity.
  now destruct (decide (i = k)).
Qed.

Lemma harmless_fill_first k text tpl :
  Placeholder.braces_blocked false text = true ->
  Placeholder.harmless tpl = true ->
  Placeholder.harmless (fill_first k text tpl) = true.
Proof.
  intros T. induction tpl as [|[s|i] tpl IH]; cbn [Placeholder.harmless fill_first]; auto.
  - intros H. apply andb_true_iff in H as [Hs Ht].
    now rewrite fill_first_nil, Hs, IH.
  - intros H. destruct (decide (i = k)); cbn [Placeholder.harmless]; [|auto].
    now rewrite braces_blocked_weaken, H.
Qed.

Lemma forEach_fill_each_harmless args :
  forall k tpl,
    Placeholder.harmless tpl = true ->
    forallb Placeholder.harmless_arg args = true ->
    JS.forEach
      (fun message arg index => JS.replace (placeholder index) (String_ arg) message)
      args k (render tpl)
    = render (Template.fill_each k args tpl).
Proof.
  induction args as [|arg args IH]; intros k tpl P L; [reflexivity|].
  cbn [forallb] in L. apply andb_true_iff in L as [La L].
  unfold Placeholder.harmless_arg in La. apply andb_true_iff in La as [Ld Lb].
  cbn [JS.forEach Template.fill_each]. rewrite replace_render_harmless by assumption.
  apply IH; [now apply harmless_fill_first | assumption].
Qed.







(** ** localization.ts: messages without placeholders, loaded bundles *)

Lemma localize_from_message (bundle : gmap string string) key args message :
  Prototype.localize bundle key [] = Prototype.Returns (Prototype.Str message) ->
  Prototype.localize bundle key args =
    Prototype.Returns
      (Prototype.Str
         (JS.forEach
            (fun message arg index => JS.replace (placeholder index) (String_ arg) message)
            args 0 message)).
Proof.
  unfold Prototype.localize.
  destruct (Prototype.get bundle key) as [[entry|]|]; cbn [JS.forEach];
    intros H; inversion H; reflexivity.
Qed.

(** A message that holds no opening brace comes back as it is, whatever
    arguments are passed, dollar patterns included; this covers a key
    that is returned for want of an entry.  A key without entry that
    names a member of Object.prototype gives that member when no
    argument is passed and a TypeError otherwise. *)
Theorem localize_ignores_arguments_without_brace (bundle : gmap string string)
  (key : string) (args : list Arg) :
  (forall entry, bundle !! key = Some entry -> entry <> "" ->
     JS.has_char "{" entry = false ->
     Prototype.localize bundle key args = Prototype.Returns (Prototype.Str entry)) /\
  (bundle !! key = Some "" \/ bundle !! key = None /\ Prototype.inherited key = false ->
     JS.has_char "{" key = false ->
     Prototype.localize bundle key args = Prototype.Returns (Prototype.Str key)) /\
  (bundle !! key = None -> Prototype.inherited key = true ->
     Prototype.localize bundle key args =
       match args with
       | [] => Prototype.Returns Prototype.Obj
       | _ :: _ => Prototype.Throws
       end).
Proof.
  split; [|split].
  - intros entry E N H. unfold Prototype.localize, Prototype.get. rewrite E.
    destruct entry; [contradiction|]. cbn [JS.or_else]. now rewrite forEach_no_brace.
  - intros E H. unfold Prototype.localize, Prototype.get.
    destruct E as [-> | [-> ->]]; cbn [JS.or_else]; now rewrite forEach_no_brace.
  - apply localize_on_members.
Qed.

Lemma localize_ignores_arguments_without_brace_witness :
  Prototype.localize {[ "button.respond" := "Respond" ]} "button.respond"
    [ArgString "$&"; ArgNumber "3"] = Prototype.Returns (Prototype.Str "Respond") /\
  Prototype.localize ∅ "time.justNow" [ArgNumber "5"]
    = Prototype.Returns (Prototype.Str "time.justNow") /\
  Prototype.localize ∅ "toString" [ArgNumber "5"] = Prototype.Throws.
Proof.
  split; [|split].
  - apply (proj1 (localize_ignores_arguments_without_brace
             {[ "button.respond" := "Respond" ]} "button.respond"
             [ArgString "$&"; ArgNumber "3"]) "Respond");
      [reflexivity | discriminate | reflexivity].
  - apply (proj1 (proj2 (localize_ignores_arguments_without_brace ∅ "time.justNow"
             [ArgNumber "5"]))); [right; split; reflexivity | reflexivity].
  - apply (proj2 (proj2 (localize_ignores_arguments_without_brace ∅ "toString"
             [ArgNumber "5"]))); reflexivity.
Defined.

Lemma assign_lookup (target source : gmap string string) key :
  key <> "__proto__" \/ is_Some (target !! "__proto__") ->
  Bundle.assign target source !! key =
    match source !! key with
    | Some text => Some text
    | None => target !! key
    end.
Proof.
  intros H. unfold Bundle.assign. rewrite lookup_union.
  destruct (decide (is_Some (target !! "__proto__"))) as [_|N].
  - destruct (source !! key), (target !! key); reflexivity.
  - destruct H as [H|H]; [|contradiction].
    rewrite lookup_delete_ne by congruence.
    destruct (source !! key), (target !! key); reflexivity.
Qed.

Lemma assign_lookup_proto (target source : gmap string string) :
  target !! "__proto__" = None ->
  Bundle.assign target source !! "__proto__" = None.
Proof.
  intros H. unfold Bundle.assign. rewrite lookup_union.
  destruct (decide (is_Some (target !! "__proto__"))) as [[x E]|_]; [congruence|].
  rewrite lookup_delete_eq, H. reflexivity.
Qed.

Lemma localize_same_lookup (b1 b2 : gmap string string) key args :
  b1 !! key = b2 !! key ->
  Prototype.localize b1 key args = Prototype.localize b2 key args.
Proof. intros H. unfold Prototype.localize, Prototype.get. now rewrite H. Qed.

(** The bundle after loading.  For the empty locale, for "en" and when
    the localized file cannot be read, the bundle is package.nls.json.
    Otherwise a key other than "__proto__" is looked up in the localized
    file first and in package.nls.json otherwise, so [localize] shows
    the localized text, falls back to the English one for a key the
    translation lacks, and shows the bare key when the translation maps
    it to the empty string, even if an English text exists.  The same
    holds of "__proto__" when package.nls.json has an entry under that
    name; when it has none, an entry of the localized file under that
    name is not copied, and [localize] gives Object.prototype. *)
Theorem loaded_bundle_lookup (base localized : gmap string string)
  (locale key : string) (require : string -> option (gmap string string)) :
  (locale = "" \/ locale = "en" \/
   require ("../package.nls." +:+ locale +:+ ".json") = None ->
   Bundle.load base locale require = base) /\
  (locale <> "" -> locale <> "en" ->
   require ("../package.nls." +:+ locale +:+ ".json") = Some localized ->
   (key <> "__proto__" \/ is_Some (base !! "__proto__") ->
    Bundle.load base locale require !! key =
      match localized !! key with
      | Some text => Some text
      | None => base !! key
      end /\
    (forall text, localized !! key = Some text -> text <> "" ->
       Prototype.localize (Bundle.load base locale require) key []
         = Prototype.Returns (Prototype.Str text)) /\
    (localized !! key = None ->
       Prototype.localize (Bundle.load base locale require) key []
         = Prototype.localize base key []) /\
    (localized !! key = Some "" ->
       Prototype.localize (Bundle.load base locale require) key []
         = Prototype.Returns (Prototype.Str key))) /\
   (base !! "__proto__" = None ->
    Bundle.load base locale require !! "__proto__" = None /\
    Prototype.localize (Bundle.load base locale require) "__proto__" []
      = Prototype.Returns Prototype.Obj)).
Proof.
  split.
  - intros H. unfold Bundle.load.
    destruct H as [-> | [-> | H]]; [reflexivity | reflexivity |].
    rewrite H. now destruct (_ && _).
  - intros N1 N2 R.
    assert (L : Bundle.load base locale require = Bundle.assign base localized).
    { unfold Bundle.load. apply String.eqb_neq in N1, N2. now rewrite N1, N2, R. }
    rewrite L. split.
    + intros K. pose proof (assign_lookup base localized key K) as A.
      split; [exact A|]. repeat split.
      * intros text E N. unfold Prototype.localize, Prototype.get.
        rewrite A, E. now destruct text.
      * intros E. apply localize_same_lookup. now rewrite A, E.
      * intros E. unfold Prototype.localize, Prototype.get. now rewrite A, E.
    + intros E. pose proof (assign_lookup_proto base localized E) as A.
      split; [exact A|]. now rewrite localize_on_members.
Qed.

Lemma loaded_bundle_lookup_witness :
  let base : gmap string string :=
    {[ "button.submit" := "Submit"; "button.cancel" := "Cancel"; "button.back" := "Back" ]} in
  let pt : gmap string string :=
    {[ "button.submit" := "Enviar"; "button.back" := ""; "__proto__" := "x" ]} in
  let require (path : string) :=
    if (path =? "../package.nls.pt-br.json")%string then Some pt else None in
  let str s := Prototype.Returns (Prototype.Str s) in
  Prototype.localize (Bundle.load base "pt-br" require) "button.submit" [] = str "Enviar" /\
  Prototype.localize (Bundle.load base "pt-br" require) "button.cancel" [] = str "Cancel" /\
  Prototype.localize (Bundle.load base "pt-br" require) "button.back" []
    = str "button.back" /\
  Prototype.localize (Bundle.load base "pt-br" require) "__proto__" []
    = Prototype.Returns Prototype.Obj /\
  Bundle.load base "fr" require = base.
Proof.
  intros base pt require str.
  destruct (loaded_bundle_lookup base pt "pt-br" "button.submit" require) as [_ H1].
  destruct (loaded_bundle_lookup base pt "pt-br" "button.cancel" require) as [_ H2].
  destruct (loaded_bundle_lookup base pt "pt-br" "button.back" require) as [_ H3].
  destruct (loaded_bundle_lookup base pt "fr" "button.back" require) as [H4 _].
  destruct H1 as [H1 H5]; [discriminate | discriminate | reflexivity |].
  destruct H1 as (_ & H1 & _); [left; discriminate|].
  destruct H2 as [H2 _]; [discriminate | discriminate | reflexivity |].
  destruct H2 as (_ & _ & H2 & _); [left; discriminate|].
  destruct H3 as [H3 _]; [discriminate | discriminate | reflexivity |].
  destruct H3 as (_ & _ & _ & H3); [left; discriminate|].
  destruct H5 as [_ H5]; [reflexivity|].
  split; [|split; [|split; [|split]]].
  - apply H1; [reflexivity | discriminate].
  - rewrite H2 by reflexivity. reflexivity.
  - apply H3. reflexivity.
  - exact H5.
  - apply H4. right. right. reflexivity.
Defined.

(** Each argument is substituted once.  When the message [localize]
    starts from, which is what it returns without arguments, is made of
    placeholders and of text in between, no argument's string form holds
    one of the four dollar patterns, and neither that text nor an
    argument's string form holds an opening brace followed by digits and
    a closing brace, or by nothing but digits up to its end (the end of
    the message excepted), argument [i] fills the first [{i}] and leaves
    the later ones: a placeholder that has an argument occurs once less
    in the result, and one without argument as often as before. *)
Theorem localize_fills_first_occurrence (bundle : gmap string string)
  (key : string) (args : list Arg) (tpl : list Piece) (i : nat) :
  Prototype.localize bundle key [] = Prototype.Returns (Prototype.Str (render tpl)) ->
  Placeholder.harmless tpl = true ->
  forallb Placeholder.harmless_arg args = true ->
  Prototype.localize bundle key args
    = Prototype.Returns (Prototype.Str (render (Template.fill_each 0 args tpl))) /\
  Template.occurrences i (Template.fill_each 0 args tpl) =
    if decide (i < length args) then pred (Template.occurrences i tpl)
    else Template.occurrences i tpl.
Proof.
  intros E P L. split.
  - rewrite (localize_from_message bundle key args (render tpl) E).
    now rewrite forEach_fill_each_harmless.
  - rewrite occurrences_fill_each.
    destruct (decide (0 <= i < 0 + length args)), (decide (i < length args));
      try lia; reflexivity.
Qed.

Lemma localize_fills_first_occurrence_witness :
  Prototype.localize {[ "k" := "{0}, {0} and {1} for $ {all}" ]} "k"
    [ArgString "a"; ArgString "b$"]
    = Prototype.Returns (Prototype.Str "a, {0} and b$ for $ {all}").
Proof.
  refine (proj1 (localize_fills_first_occurrence
            {[ "k" := "{0}, {0} and {1} for $ {all}" ]} "k"
            [ArgString "a"; ArgString "b$"]
            [Hole 0; Text ", "; Hole 0; Text " and "; Hole 1; Text " for $ {all}"]
            0 _ _ _));
    reflexivity.
Defined.

(** ** webview/main.ts: clearing the form, a question end to end *)

(** Clearing the form is idempotent.  It changes nothing exactly when no
    question is displayed: the empty state, if there is one, is shown,
    the form, if there is one, is hidden, and the textarea, if there is
    one, is empty.  After a submit, a cancel or a clear the form is
    hidden and a further submit posts the empty string. *)
Theorem clearForm_idempotent (md_render : string -> string) (doc : Document) :
  clearForm (clearForm doc) = clearForm doc /\
  (clearForm doc = doc <->
     emptyState doc <> Some true /\ requestForm doc <> Some false /\
     (forall value, responseInput doc = Some value -> value = "")) /\
  Panel.form_visible (snd (handleSubmit doc)) = false /\
  Panel.form_visible (snd (handleCancel doc)) = false /\
  Panel.form_visible (Panel.onMessage md_render doc Clear) = false /\
  fst (handleSubmit (snd (handleSubmit doc))) = Submit "" /\
  fst (handleSubmit (snd (handleCancel doc))) = Submit "" /\
  fst (handleSubmit (Panel.onMessage md_render doc Clear)) = Submit "".
Proof.
  destruct doc as [a b c d e].
  split; [destruct a, b, e; reflexivity|].
  split; [|destruct a, b, e; repeat split].
  unfold clearForm. cbn [emptyState requestForm questionTitle questionContent responseInput].
  split.
  - intros H. injection H as Ha Hb He. repeat split.
    + destruct a as [[]|]; congruence.
    + destruct b as [[]|]; congruence.
    + intros value E. rewrite E in He. congruence.
  - intros (Ha & Hb & He).
    assert (Ea : match a with Some _ => Some false | None => None end = a).
    { destruct a as [[]|]; congruence. }
    assert (Eb : match b with Some _ => Some true | None => None end = b).
    { destruct b as [[]|]; congruence. }
    assert (Ee : match e with Some _ => Some "" | None => None end = e).
    { destruct e as [value|]; [|reflexivity]. now rewrite (He value eq_refl). }
    now rewrite Ea, Eb, Ee.
Qed.

(** A question through the panel, end to end.  With a view attached and
    the slot free, an ask posts one question to the view; a script that
    found all its elements, the one under the id response-input being a
    textarea, whatever they showed before, then shows the
    form with that title (its own English default is never used), the
    rendered question and an empty textarea; when the human types [text]
    and submits, the caller's promise is resolved with [responded: true]
    and [text] trimmed, the slot is free again and the form is hidden. *)
Theorem panel_round_trip (md_render : string -> string)
  (bundle : gmap string string) (st : Provider) (v : nat) (view : WebviewView)
  (doc0 : Document)
  (question : string) (title : option string) (text : string) :
  reachable bundle st ->
  _pendingRequest st = None ->
  _view st = Some v ->
  heap st !! v = Some view ->
  Typing.complete doc0 ->
  let shown := Tools.or_default title (Localization.confirmationRequired bundle) in
  let st1 := fst (waitForUserResponse bundle question title st) in
  let doc1 :=
    Panel.deliver md_render (posted view ++ [ShowQuestion question shown]) doc0 in
  let submission := handleSubmit (Typing.type_text text doc1) in
  let st2 := step bundle st1 (Message (fst submission)) in
  posted <$> heap st1 !! v = Some (posted view ++ [ShowQuestion question shown]) /\
  Panel.form_visible doc1 = true /\
  emptyState doc1 = Some true /\
  questionTitle doc1 = Some shown /\
  questionContent doc1 = Some (Panel.renderMarkdown md_render question) /\
  responseInput doc1 = Some "" /\
  outcomes (promises st) st2 = [mkResult true (JS.trim text)] /\
  _pendingRequest st2 = None /\
  Panel.form_visible (snd submission) = false.
Proof.
  intros R Ep Ev Hv C0 shown st1 doc1 submission st2.
  assert (N : shown <> "").
  { apply or_default_not_empty, localize_not_empty. discriminate. }
  assert (C : Typing.complete (Panel.deliver md_render (posted view) doc0)).
  { now apply complete_deliver. }
  destruct C as ([a Ha] & [b Hb] & [c Hc] & [d Hd] & [e He]).
  assert (D : doc1 = mkDocument (Some true) (Some false) (Some shown)
                       (Some (Panel.renderMarkdown md_render question)) (Some "")).
  { subst doc1. unfold Panel.deliver. rewrite fold_left_app. cbn [fold_left Panel.onMessage].
    unfold Panel.showQuestion. fold (Panel.deliver md_render (posted view) doc0).
    rewrite Ha, Hb, Hc, Hd, He. now rewrite or_default_given. }
  assert (R1 : reachable bundle st1).
  { apply (reachable_step bundle st (Ask question title) R). }
  destruct (ask_fields bundle question title st v Ep Ev) as (_ & Hp & _).
  fold st1 in Hp.
  assert (M : fst submission = Submit (JS.trim text)).
  { subst submission. rewrite D. cbn. now destruct (JS.trim text). }
  split; [now apply ask_posted|].
  rewrite D. repeat split.
  - subst st2. rewrite M.
    destruct (pending_resolves bundle st1 (promises st) (Message (Submit (JS.trim text)))
                (reachable_Inv bundle st1 R1) Hp eq_refl)
      as (result & _ & Ho & _ & _ & _ & Hs & _).
    now rewrite Ho, (Hs _ eq_refl).
  - subst st2.
    now destruct (pending_resolves bundle st1 (promises st) (Message (fst submission))
                    (reachable_Inv bundle st1 R1) Hp eq_refl)
      as (result & _ & _ & Hn & _).
  - subst submission. rewrite D. reflexivity.
Qed.

Lemma panel_round_trip_witness :
  let st := run ∅ [Resolve 1] init in
  let st1 := fst (waitForUserResponse ∅ "Deploy?" (Some "Agent: Release") st) in
  let doc0 := mkDocument (Some false) (Some true) (Some "Old title") (Some "<p>old</p>")
                (Some "left over") in
  let doc1 := Panel.deliver (fun s => s) [ShowQuestion "Deploy?" "Agent: Release"] doc0 in
  questionTitle doc1 = Some "Agent: Release" /\
  outcomes 0 (step ∅ st1 (Message (fst (handleSubmit (Typing.type_text " yes " doc1)))))
    = [mkResult true "yes"].
Proof.
  intros st st1 doc0 doc1.
  destruct (panel_round_trip (fun s => s) ∅ st 1 new_view doc0 "Deploy?"
              (Some "Agent: Release") " yes ")
    as (_ & _ & _ & H1 & _ & _ & H2 & _).
  - exists [Resolve 1]. reflexivity.
  - reflexivity.
  - reflexivity.
  - reflexivity.
  - repeat split; cbn; eauto.
  - split; [exact H1 | exact H2].
Defined.
